(** * cryptohedger: a shallow embedding of [autohedger.py]

    The ledger (Trade, Position, Book, Portfolio), the strategy selector,
    the hedge quantity calculator with its execution queue and the
    simulation loop of [Hedger.run_hedging] are translated function by
    function.

    Conventions of the embedding:
    - a Python [float] quantity, price or notional is an exact rational
      ([Qc], canonical fractions, so that [=] is Leibniz equality);
      rounding is not modelled, so that a sum here stands for the trades
      or chunks that are added, not for the binary64 value of adding them
      in one order or another;
    - a [datetime] is a number of seconds ([Z]); one minute is 60;
    - a Python [dict] is an association list in insertion order with
      pairwise distinct keys; a [Counter] is a dict whose lookup of an
      absent key is 0 and whose [update] adds;
    - a raised exception is the [Raise] branch of [result];
    - logging ([Hedger.log]) has no effect on the state and is left out. *)

From Stdlib Require Import List String ZArith QArith Qcanon Bool Lia Arith.
From Stdlib Require Import Sorted Permutation.
Import ListNotations.

Local Open Scope string_scope.
Local Open Scope Z_scope.
Local Open Scope Qc_scope.

(** ** Exceptions *)

Inductive exn : Type :=
| Exception (message : string)
| KeyError (key : string)
| TypeError (message : string).

Inductive result (A : Type) : Type :=
| Ok (a : A)
| Raise (e : exn).
Arguments Ok {A} a.
Arguments Raise {A} e.

Definition bind {A B : Type} (r : result A) (k : A -> result B) : result B :=
  match r with
  | Ok a => k a
  | Raise e => Raise e
  end.

Notation "x <- r ;; k" := (bind r (fun x => k))
  (at level 61, r at next level, right associativity).
Notation "' p <- r ;; k" := (bind r (fun p => k))
  (at level 61, p pattern, r at next level, right associativity).

(** ** Python dictionaries *)

Module PyDict.

Definition dict (V : Type) : Type := list (string * V).

Definition keys {V} (d : dict V) : list string := map fst d.
Definition values {V} (d : dict V) : list V := map snd d.

(** [d.get(k)] *)
Fixpoint get {V} (k : string) (d : dict V) : option V :=
  match d with
  | [] => None
  | (k', v) :: d' => if String.eqb k k' then Some v else get k d'
  end.

(** [k in d] *)
Definition mem {V} (k : string) (d : dict V) : bool :=
  match get k d with Some _ => true | None => false end.

(** [d[k] = v]: an existing key keeps its place, a new key goes last. *)
Fixpoint set {V} (k : string) (v : V) (d : dict V) : dict V :=
  match d with
  | [] => [(k, v)]
  | (k', v') :: d' =>
      if String.eqb k k' then (k', v) :: d' else (k', v') :: set k v d'
  end.

(** [dict.update(d, other)]: every item of [other] replaces. *)
Definition update {V} (d other : dict V) : dict V :=
  fold_left (fun acc kv => set (fst kv) (snd kv) acc) other d.

End PyDict.

Import PyDict.

(** ** [collections.Counter] *)

Module Counter.

(** [c[k]]: an absent key reads as 0 ([Counter.__missing__]). *)
Definition get (k : string) (c : dict Qc) : Qc :=
  match PyDict.get k c with Some v => v | None => 0 end.

(** One step of the loop of [Counter.update]:
    [self[elem] = count + self_get(elem, 0)]. *)
Definition add (c : dict Qc) (kv : string * Qc) : dict Qc :=
  PyDict.set (fst kv) (snd kv + get (fst kv) c) c.

(** [Counter.update(c, mapping)]: an empty counter takes the fast path
    [dict.update], a non-empty one adds key by key. *)
Definition update (c other : dict Qc) : dict Qc :=
  match c with
  | [] => PyDict.update c other
  | _ :: _ => fold_left add other c
  end.

End Counter.

(** The mapping returned by the hedge calculator is a [Counter] on some
    paths and a plain [dict] on others; [update] dispatches on the class. *)
Record pymap : Type := mk_pymap {
  is_counter : bool;
  items : dict Qc
}.

Definition pymap_update (m : pymap) (other : dict Qc) : pymap :=
  if is_counter m
  then mk_pymap true (Counter.update (items m) other)
  else mk_pymap false (PyDict.update (items m) other).

(** ** Module constants *)

Definition TRADE_DIRECTION_BUY : string := "buy".
Definition TRADE_DIRECTION_SELL : string := "sell".

Definition SUPPORTED_ASSETS : list string := ["BTC"; "ETH"].

Definition STRATEGY_SLOW : string := "SLOW".
Definition STRATEGY_NORMAL : string := "NORMAL".
Definition STRATEGY_STEALTH : string := "STEALTH".

Definition Qc_of_Z (z : Z) : Qc := Q2Qc (inject_Z z).

(** [STRATEGY_PARAMETERS] *)
Definition client_volume_max : Qc := Qc_of_Z 100000.
Definition time_window : Z := 10.
Definition client_volume_trigger : Qc := Qc_of_Z 10000000.
Definition execution_chunks : nat := 5.

Definition SUPPORTED_STRATEGIES : list string :=
  [STRATEGY_SLOW; STRATEGY_NORMAL; STRATEGY_STEALTH].

(** [timedelta(minutes=m)] in seconds. *)
Definition minutes (m : Z) : Z := (60 * m)%Z.

(** ** Ledger *)

Record Trade : Type := mk_Trade {
  trade_book : string;
  trade_direction : string;
  trade_time : Z;
  trade_asset : string;
  trade_denominated : string;
  trade_quantity : Qc;
  trade_price : Qc
}.

(** [Trade.__init__] *)
Definition Trade_init (book : string) (time : Z) (asset denominated : string)
    (quantity price : Qc) : Trade :=
  mk_Trade book
    (if Qle_bool 0 quantity then TRADE_DIRECTION_BUY else TRADE_DIRECTION_SELL)
    time asset denominated quantity price.

(** [Trade.get_position] *)
Definition Trade_get_position (t : Trade) : dict Qc :=
  [(trade_asset t, trade_quantity t)].

Record Position : Type := mk_Position {
  position_asset : string;
  position_quantity : Qc;
  position_trades : list Trade
}.

Definition Qcsum (l : list Qc) : Qc := fold_left Qcplus l 0.

Module Position_.

(** [Position.__init__] *)
Definition init (asset : string) : Position := mk_Position asset 0 [].

(** [Position.trade_add] *)
Definition trade_add (p : Position) (t : Trade) : Position :=
  mk_Position (position_asset p)
    (position_quantity p + trade_quantity t)
    (position_trades p ++ [t])%list.

(** A [pandas.DataFrame] of trades: its column labels and its rows.
    A frame built from an empty list of records has no column at all. *)
Record TradeFrame : Type := mk_TradeFrame {
  columns : list string;
  rows : list Trade
}.

Definition trade_columns : list string :=
  ["trade_time"; "book"; "direction"; "asset"; "denominated"; "quantity";
   "price"].

(** [Position.get_trades_as_dataframe] *)
Definition get_trades_as_dataframe (p : Position) : TradeFrame :=
  match position_trades p with
  | [] => mk_TradeFrame [] []
  | _ :: _ => mk_TradeFrame trade_columns (position_trades p)
  end.

(** [frame[label]]: a missing label raises [KeyError]. *)
Definition column {A} (f : TradeFrame) (label : string)
    (field : Trade -> A) : result (list A) :=
  if existsb (String.eqb label) (columns f)
  then Ok (map field (rows f))
  else Raise (KeyError label).

(** [Position.get_trades]: [trades[trades["trade_time"] <= as_of_time]] *)
Definition get_trades (p : Position) (as_of_time : Z) : result TradeFrame :=
  let trades := get_trades_as_dataframe p in
  times <- column trades "trade_time" trade_time ;;
  Ok (mk_TradeFrame (columns trades)
        (filter (fun t => (trade_time t <=? as_of_time)%Z) (rows trades))).

(** [Position.get_quantity] *)
Definition get_quantity (p : Position) (as_of_time : option Z) : result Qc :=
  match as_of_time with
  | None => Ok (position_quantity p)
  | Some t =>
      trades <- get_trades p t ;;
      quantities <- column trades "quantity" trade_quantity ;;
      Ok (Qcsum quantities)
  end.

End Position_.

Record Book : Type := mk_Book {
  book_name : string;
  book_positions : dict Position
}.

Module Book_.

(** [Book.__init__] *)
Definition init (name : string) : Book := mk_Book name [].

(** [Book.trade_add] *)
Definition trade_add (b : Book) (t : Trade) : Book :=
  let asset := trade_asset t in
  let positions :=
    if PyDict.mem asset (book_positions b)
    then book_positions b
    else PyDict.set asset (Position_.init asset) (book_positions b) in
  match PyDict.get asset positions with
  | Some p => mk_Book (book_name b)
                (PyDict.set asset (Position_.trade_add p t) positions)
  | None => b
  end.

(** [Book.get_positions] *)
Fixpoint get_positions_items (ps : dict Position) (as_of_time : option Z)
    (positions : dict Qc) : result (dict Qc) :=
  match ps with
  | [] => Ok positions
  | (asset, position) :: ps' =>
      q <- Position_.get_quantity position as_of_time ;;
      get_positions_items ps' as_of_time (PyDict.set asset q positions)
  end.

Definition get_positions (b : Book) (as_of_time : option Z)
    : result (dict Qc) :=
  get_positions_items (book_positions b) as_of_time [].

(** [pd.concat([a, b])]: the columns of [a], then those of [b] that [a]
    lacks; the rows of [a], then the rows of [b]. *)
Definition concat_frames (a b : Position_.TradeFrame)
    : Position_.TradeFrame :=
  Position_.mk_TradeFrame
    (Position_.columns a
     ++ filter (fun c => negb (existsb (String.eqb c) (Position_.columns a)))
          (Position_.columns b))
    (Position_.rows a ++ Position_.rows b).

Fixpoint insert_trade (t : Trade) (l : list Trade) : list Trade :=
  match l with
  | [] => [t]
  | t' :: l' =>
      if (trade_time t <? trade_time t')%Z then t :: l
      else t' :: insert_trade t l'
  end.

(** [frame.sort_values(by="trade_time")]: a frame without that column
    raises [KeyError]; the rows are sorted by insertion (pandas does not
    fix the order of rows of equal time). *)
Definition sort_values_by_trade_time (f : Position_.TradeFrame)
    : result Position_.TradeFrame :=
  if existsb (String.eqb "trade_time") (Position_.columns f)
  then Ok (Position_.mk_TradeFrame (Position_.columns f)
             (fold_left (fun acc t => insert_trade t acc)
                (Position_.rows f) []))
  else Raise (KeyError "trade_time").

(** The loop of [Book.get_trades]. *)
Fixpoint get_trades_items (ps : dict Position) (as_of_time : Z)
    (trades : Position_.TradeFrame) : result Position_.TradeFrame :=
  match ps with
  | [] => Ok trades
  | (asset, position) :: ps' =>
      position_trades <- Position_.get_trades position as_of_time ;;
      get_trades_items ps' as_of_time (concat_frames trades position_trades)
  end.

(** [Book.get_trades]; [now] is what [datetime.now()] reads. *)
Definition get_trades (b : Book) (as_of_time : option Z) (now : Z)
    : result Position_.TradeFrame :=
  let as_of_time :=
    match as_of_time with
    | None => now
    | Some t => t
    end in
  trades <- get_trades_items (book_positions b) as_of_time
              (Position_.mk_TradeFrame [] []) ;;
  sort_values_by_trade_time trades.

End Book_.

Record Portfolio : Type := mk_Portfolio {
  portfolio_name : string;
  portfolio_books : list Book
}.

Module Portfolio_.

(** [Portfolio.net_positions] *)
Fixpoint net_positions_books (books : list Book) (as_of_time : option Z)
    (counter : dict Qc) : result (dict Qc) :=
  match books with
  | [] => Ok counter
  | book :: books' =>
      book_positions <- Book_.get_positions book as_of_time ;;
      net_positions_books books' as_of_time
        (Counter.update counter book_positions)
  end.

Definition net_positions (p : Portfolio) (as_of_time : option Z)
    : result (dict Qc) :=
  net_positions_books (portfolio_books p) as_of_time [].

End Portfolio_.

(** ** Exchange *)

(** [Exchange.at_market_order]: [close_prices] is the table fetched by
    [Exchange.get_close_prices] when the exchange is created. *)
Definition at_market_order (close_prices : dict Qc) (book asset : string)
    (quantity : Qc) (time : Z) : result Trade :=
  match PyDict.get asset close_prices with
  | Some price => Ok (Trade_init book time asset "USD" quantity price)
  | None => Raise (KeyError asset)
  end.

(** ** Hedger *)

(** A record of the client trades file. *)
Record FeedRow : Type := mk_FeedRow {
  feed_time : Z;
  feed_asset : string;
  feed_denominated : string;
  feed_quantity : Qc;
  feed_price : Qc
}.

(** A row of [Hedger.client_trades]: the record and its [notional] column. *)
Record ClientRow : Type := mk_ClientRow {
  row_feed : FeedRow;
  row_notional : Qc
}.

Definition row_time (r : ClientRow) : Z := feed_time (row_feed r).

(** [Hedger.client_trades]: the frame without columns that [__init__]
    makes with [pd.DataFrame()], or the frame that [load_client_trades]
    reads, which has every column, with its rows. *)
Inductive ClientFrame : Type :=
| NoColumns
| Loaded (rows : list ClientRow).

Definition client_rows (frame : ClientFrame) : list ClientRow :=
  match frame with
  | NoColumns => []
  | Loaded rows => rows
  end.

Record Hedger : Type := mk_Hedger {
  close_prices : dict Qc;
  client_trades : ClientFrame;
  client_book : Book;
  hedge_book : Book;
  start_time : option Z;
  end_time : option Z;
  execution_queue : list (dict Qc)
}.

Definition Qcltb (x y : Qc) : bool := negb (Qle_bool y x).

Module Hedger_.

(** [Hedger.__init__]; [prices] is what the exchange fetched. *)
Definition init (prices : dict Qc) : Hedger :=
  mk_Hedger prices NoColumns (Book_.init "CLIENT BOOK")
    (Book_.init "HEDGE BOOK")
    None None [].

(** [self.portfolio] holds the two books by reference: it always sees
    their current contents. *)
Definition portfolio (h : Hedger) : Portfolio :=
  mk_Portfolio "Hedging Portfolio" [client_book h; hedge_book h].

Definition set_client_book (h : Hedger) (b : Book) : Hedger :=
  mk_Hedger (close_prices h) (client_trades h) b (hedge_book h)
    (start_time h) (end_time h) (execution_queue h).

Definition set_hedge_book (h : Hedger) (b : Book) : Hedger :=
  mk_Hedger (close_prices h) (client_trades h) (client_book h) b
    (start_time h) (end_time h) (execution_queue h).

Definition set_execution_queue (h : Hedger) (q : list (dict Qc)) : Hedger :=
  mk_Hedger (close_prices h) (client_trades h) (client_book h)
    (hedge_book h) (start_time h) (end_time h) q.

(** [Hedger.trades_net_by_position] *)
Definition trades_net_by_position (trades : list ClientRow) : dict Qc :=
  fold_left
    (fun net_position row =>
       Counter.update net_position
         [(feed_asset (row_feed row), feed_quantity (row_feed row))])
    trades [].

(** [Hedger.trades_net_by_notional] *)
Definition trades_net_by_notional (trades : list ClientRow) : dict Qc :=
  fold_left
    (fun net_notional row =>
       Counter.update net_notional
         [(feed_asset (row_feed row),
           feed_quantity (row_feed row) * feed_price (row_feed row))])
    trades [].

(** [Hedger.get_hedge_quantities_normal] *)
Definition get_hedge_quantities_normal (current_positions : dict Qc)
    : dict Qc :=
  fold_left
    (fun hedge_quantities kv =>
       if Qc_eq_dec (snd kv) 0 then hedge_quantities
       else PyDict.set (fst kv) (Qc_of_Z (-1) * snd kv) hedge_quantities)
    current_positions [].

(** [sort_values(by="trade_time")], as an insertion sort that keeps rows
    of equal time in file order (pandas does not fix their order; no
    property below depends on it). *)
Fixpoint insert_row (r : ClientRow) (l : list ClientRow) : list ClientRow :=
  match l with
  | [] => [r]
  | r' :: l' =>
      if (row_time r <? row_time r')%Z then r :: l
      else r' :: insert_row r l'
  end.

Definition sort_rows (l : list ClientRow) : list ClientRow :=
  fold_left (fun acc r => insert_row r acc) l [].

(** [Series.min()] and [Series.max()] of a non-empty column. *)
Definition column_min (t : Z) (ts : list Z) : Z := fold_left Z.min ts t.
Definition column_max (t : Z) (ts : list Z) : Z := fold_left Z.max ts t.

(** [Hedger.load_client_trades]; [feed] is the parsed content of the
    file.  The bounds of an empty feed are NaT: the result is [None]. *)
Definition load_client_trades (h : Hedger) (feed : list FeedRow)
    : option Hedger :=
  let client_trades :=
    map (fun r => mk_ClientRow r (feed_quantity r * feed_price r)) feed in
  let client_trades := sort_rows client_trades in
  match map row_time client_trades with
  | [] => None
  | t :: ts =>
      Some (mk_Hedger (close_prices h) (Loaded client_trades) (client_book h)
              (hedge_book h)
              (Some (column_min t ts + minutes (-1))%Z)
              (Some (column_max t ts))
              (execution_queue h))
  end.

(** [Hedger.client_trades_by_time]: the rows of the filtered frame; the
    mask looks up [self.client_trades["trade_time"]], which a frame without
    columns does not have. *)
Definition client_trades_by_time (h : Hedger) (start_time end_time : Z)
    : result (list ClientRow) :=
  match client_trades h with
  | NoColumns => Raise (KeyError "trade_time")
  | Loaded rows =>
      Ok (filter
            (fun r =>
               (start_time <? row_time r)%Z && (row_time r <=? end_time)%Z)
            rows)
  end.

(** [Hedger.book_client_trades] *)
Definition book_client_trades (h : Hedger) (start_time end_time : Z)
    : result (list ClientRow * Hedger) :=
  trades_to_book <- client_trades_by_time h start_time end_time ;;
  Ok (trades_to_book,
      fold_left
        (fun h row =>
           let r := row_feed row in
           let trade := Trade_init (book_name (client_book h)) (feed_time r)
                          (feed_asset r) (feed_denominated r)
                          (feed_quantity r) (feed_price r) in
           set_client_book h (Book_.trade_add (client_book h) trade))
        trades_to_book h).

(** [Hedger.recent_client_volume]; every caller passes [as_of_time]. *)
Definition recent_client_volume (h : Hedger) (sampling_window : Z)
    (as_of_time : Z) : result Qc :=
  if (sampling_window <? 0)%Z
  then Raise (Exception "sampling_window must be positive number of minutes")
  else
    let end_time := as_of_time in
    let start_time := (end_time + minutes (- sampling_window))%Z in
    filtered_client_trades <- client_trades_by_time h start_time end_time ;;
    Ok (Qcsum (map row_notional filtered_client_trades)).

(** [Hedger.get_current_strategy] *)
Definition get_current_strategy (h : Hedger) (hedger_time : Z)
    (client_notional_change : dict Qc) : result string :=
  volume <- recent_client_volume h time_window hedger_time ;;
  if Qcltb volume client_volume_max then Ok STRATEGY_SLOW
  else if Qcltb client_volume_trigger
            (Qcsum (PyDict.values client_notional_change))
  then Ok STRATEGY_STEALTH
  else Ok STRATEGY_NORMAL.

(** [zip] applied to the unpacked [lists]: tuples of the i-th elements,
    as many as the shortest list has; no list, no tuple. *)
Fixpoint zip_star {A} (lists : list (list A)) : list (list A) :=
  match lists with
  | [] => []
  | [l] => map (fun x => [x]) l
  | l :: rest => map (fun p => fst p :: snd p) (combine l (zip_star rest))
  end.

(** The inner loop of [get_hedge_quantities_stealth] for one asset. *)
Definition stealth_chunks (asset : string) (quantity : Qc)
    : list (dict Qc) :=
  let chunks := execution_chunks in
  let multiplier := if Qle_bool 0 quantity then Qc_of_Z (-1) else Qc_of_Z 1 in
  map (fun chunk =>
         [(asset, multiplier * quantity / Qc_of_Z (Z.of_nat chunks))])
      (seq 0 chunks).

(** [Hedger.get_hedge_quantities_stealth] *)
Definition get_hedge_quantities_stealth (current_positions : dict Qc)
    : list (dict Qc) :=
  let stealth_hedges_by_asset :=
    fold_left
      (fun by_asset kv =>
         PyDict.set (fst kv) (stealth_chunks (fst kv) (snd kv)) by_asset)
      current_positions [] in
  List.concat (zip_star (PyDict.values stealth_hedges_by_asset)).

Definition supported (strategy : string) : bool :=
  existsb (String.eqb strategy) SUPPORTED_STRATEGIES.

(** [Hedger.get_hedge_quantities] *)
Definition get_hedge_quantities (h : Hedger)
    (current_positions client_position_change : dict Qc)
    (strategy : string) : result (pymap * Hedger) :=
  if negb (supported strategy)
  then Raise (Exception ("Unknown hedging strategy " ++ strategy))
  else
    let hedge_quantities := mk_pymap true [] in
    '(hedge_quantities, h) <-
      (if String.eqb strategy STRATEGY_NORMAL
       then Ok (mk_pymap false
                  (get_hedge_quantities_normal client_position_change), h)
       else if String.eqb strategy STRATEGY_SLOW
       then Ok (hedge_quantities, h)
       else if String.eqb strategy STRATEGY_STEALTH
       then Ok (hedge_quantities,
                set_execution_queue h
                  (execution_queue h
                   ++ get_hedge_quantities_stealth current_positions)%list)
       else Raise (Exception ("Unimplemented strategy " ++ strategy))) ;;
    match execution_queue h with
    | [] => Ok (hedge_quantities, h)
    | front :: rest =>
        Ok (pymap_update hedge_quantities front, set_execution_queue h rest)
    end.

(** [Hedger.place_hedge_orders] *)
Fixpoint place_hedge_orders (h : Hedger) (hedge_positions : dict Qc)
    (trade_time : Z) : result Hedger :=
  match hedge_positions with
  | [] => Ok h
  | (asset, quantity) :: hedge_positions' =>
      hedge_trade <- at_market_order (close_prices h)
                       (book_name (hedge_book h)) asset quantity trade_time ;;
      place_hedge_orders
        (set_hedge_book h (Book_.trade_add (hedge_book h) hedge_trade))
        hedge_positions' trade_time
  end.

(** Steps 0 to 4 of one cycle of [run_hedging]: the new clock, the hedge
    quantities and the hedger before the orders are placed. *)
Definition cycle_hedge_quantities (hedger_time : Z) (h : Hedger)
    : result (Z * pymap * Hedger) :=
  let last_cycle_time := hedger_time in
  let hedger_time := (hedger_time + minutes 1)%Z in
  '(client_trades_booked, h) <-
    book_client_trades h last_cycle_time hedger_time ;;
  let client_position_change :=
    trades_net_by_position client_trades_booked in
  current_positions <- Portfolio_.net_positions (portfolio h) None ;;
  let client_notional_change :=
    trades_net_by_notional client_trades_booked in
  current_strategy <-
    get_current_strategy h hedger_time client_notional_change ;;
  '(hedge_quantities, h) <-
    get_hedge_quantities h current_positions client_position_change
      current_strategy ;;
  Ok (hedger_time, hedge_quantities, h).

(** The body of the loop of [run_hedging]. *)
Definition cycle (hedger_time : Z) (h : Hedger) : result (Z * Hedger) :=
  '(hedger_time, hedge_quantities, h) <-
    cycle_hedge_quantities hedger_time h ;;
  h <- place_hedge_orders h (items hedge_quantities) hedger_time ;;
  Ok (hedger_time, h).

(** [hedger_time <= self.end_time or len(self.execution_queue) > 0] *)
Definition loop_condition (end_time hedger_time : Z) (h : Hedger) : bool :=
  (hedger_time <=? end_time)%Z
  || match execution_queue h with [] => false | _ :: _ => true end.

(** How a run ends; the clock of [Done] is [None] when it is NaT. *)
Inductive outcome : Type :=
| Done (hedger_time : option Z) (h : Hedger)
| Failed (e : exn)
| Timeout.

(** The [while] loop of [run_hedging], cut after [fuel] cycles. *)
Fixpoint run_loop (fuel : nat) (end_time hedger_time : Z) (h : Hedger)
    : outcome :=
  if loop_condition end_time hedger_time h then
    match fuel with
    | O => Timeout
    | S fuel' =>
        match cycle hedger_time h with
        | Ok (hedger_time', h') => run_loop fuel' end_time hedger_time' h'
        | Raise e => Failed e
        end
    end
  else Done (Some hedger_time) h.

(** [Hedger.run_hedging]; comparing the unset bounds of a hedger that
    has loaded nothing is a [TypeError]. *)
Definition run_hedging (fuel : nat) (h : Hedger) : outcome :=
  match start_time h, end_time h with
  | Some start_time, Some end_time => run_loop fuel end_time start_time h
  | _, _ =>
      Failed
        (TypeError
           "'<=' not supported between instances of 'NoneType' and 'NoneType'")
  end.

(** [Hedger.run] on a new hedger, up to the end of [run_hedging].  With an
    empty feed the frame has its columns and no row, both bounds are NaT,
    [hedger_time <= self.end_time] is False and the queue of a new hedger
    is empty: no cycle runs. *)
Definition run (fuel : nat) (prices : dict Qc) (feed : list FeedRow)
    : outcome :=
  match load_client_trades (init prices) feed with
  | Some h => run_hedging fuel h
  | None =>
      let h := init prices in
      Done None
        (mk_Hedger (close_prices h) (Loaded []) (client_book h) (hedge_book h)
           None None (execution_queue h))
  end.

(** [Hedger.save_hedge_trades]: the frame written to [hedge_trades.csv];
    [now] is what [datetime.now()] reads. *)
Definition save_hedge_trades (h : Hedger) (now : Z)
    : result Position_.TradeFrame :=
  Book_.get_trades (hedge_book h) None now.

End Hedger_.

(** * Vocabulary of the properties *)

Definition position_invariant (p : Position) : Prop :=
  position_quantity p = Qcsum (map trade_quantity (position_trades p)).

(** What holds of every position of a book: it is filed under its own
    asset, it has at least one trade and its running quantity is the sum of
    its trades. *)
Definition position_wf (kv : string * Position) : Prop :=
  position_asset (snd kv) = fst kv
  /\ position_trades (snd kv) <> []
  /\ position_invariant (snd kv).

Definition book_wf (b : Book) : Prop :=
  NoDup (keys (book_positions b)) /\ Forall position_wf (book_positions b).

(** The trades of a position that count as of [t]. *)
Definition trades_as_of (p : Position) (t : Z) : list Trade :=
  filter (fun x => (trade_time x <=? t)%Z) (position_trades p).

(** The single chunk of one asset. *)
Definition stealth_hedge (kv : string * Qc) : dict Qc :=
  [(fst kv,
    (if Qle_bool 0 (snd kv) then Qc_of_Z (-1) else Qc_of_Z 1) * snd kv
    / Qc_of_Z (Z.of_nat execution_chunks))].

(** What a sequence of queue entries hedges of an asset in total, and how
    many of its entries name the asset. *)
Definition chunk_total (asset : string) (queue : list (dict Qc)) : Qc :=
  Qcsum (map (Counter.get asset) queue).

Definition chunk_count (asset : string) (queue : list (dict Qc)) : nat :=
  List.length (filter (PyDict.mem asset) queue).

(** The quantity a book holds of an asset as of a time: that of its
    position, and 0 without a position. *)
Definition book_quantity (b : Book) (as_of_time : option Z) (asset : string)
    : Qc :=
  match PyDict.get asset (book_positions b) with
  | Some position =>
      match Position_.get_quantity position as_of_time with
      | Ok q => q
      | Raise _ => 0
      end
  | None => 0
  end.

(** A book by its name and the trades booked into it, in booking order. *)
Definition book_of (ledger : string * list Trade) : Book :=
  fold_left Book_.trade_add (snd ledger) (Book_.init (fst ledger)).

(** The trades a book holds of an asset, in booking order. *)
Definition book_trades (b : Book) (asset : string) : list Trade :=
  match PyDict.get asset (book_positions b) with
  | Some p => position_trades p
  | None => []
  end.

(** The order the exchange fills for one item of the hedge quantities. *)
Definition hedge_order (h : Hedger) (hedge_positions : dict Qc)
    (trade_time : Z) (asset : string) : list Trade :=
  match PyDict.get asset hedge_positions,
        PyDict.get asset (close_prices h) with
  | Some quantity, Some price =>
      [Trade_init (book_name (hedge_book h)) trade_time asset "USD"
         quantity price]
  | _, _ => []
  end.

(** What a step leaves alone: everything but the client book, the hedge
    book and the queue. *)
Definition same_setup (h h' : Hedger) : Prop :=
  close_prices h' = close_prices h
  /\ client_trades h' = client_trades h
  /\ start_time h' = start_time h
  /\ end_time h' = end_time h.

(** [steps e t h t' h']: the loop with end time [e] gets from clock [t] and
    hedger [h] to clock [t'] and hedger [h'] through cycles that the loop
    condition allowed. *)
Inductive steps (e : Z) : Z -> Hedger -> Z -> Hedger -> Prop :=
| steps_here (t : Z) (h : Hedger) : steps e t h t h
| steps_cycle (t t1 t2 : Z) (h h1 h2 : Hedger) :
    Hedger_.loop_condition e t h = true ->
    Hedger_.cycle t h = Ok (t1, h1) ->
    steps e t1 h1 t2 h2 ->
    steps e t h t2 h2.

(** [k] cycles of the loop, if the loop condition allows them all. *)
Fixpoint steps_run (k : nat) (e t : Z) (h : Hedger) : option (Z * Hedger) :=
  match k with
  | O => Some (t, h)
  | S k' =>
      if Hedger_.loop_condition e t h then
        match Hedger_.cycle t h with
        | Ok (t1, h1) => steps_run k' e t1 h1
        | Raise _ => None
        end
      else None
  end.

(** No client trade is later than [e]. *)
Definition trades_until (e : Z) (h : Hedger) : Prop :=
  forall r, In r (client_rows (client_trades h)) -> (row_time r <= e)%Z.

(** What a finished run looks like. *)
Definition finished (e t : Z) (h : Hedger) (out : Hedger_.outcome) : Prop :=
  out <> Hedger_.Timeout
  /\ forall ot h', out = Hedger_.Done ot h' ->
       exists t', ot = Some t'
                  /\ (e < t')%Z
                  /\ execution_queue h' = []
                  /\ steps e t h t' h'.

Definition example_prices : dict Qc :=
  [("BTC", Qc_of_Z 30000); ("ETH", Qc_of_Z 1800)].

Definition loaded (feed : list FeedRow) : Hedger :=
  match Hedger_.load_client_trades (Hedger_.init example_prices) feed with
  | Some h => h
  | None => Hedger_.init example_prices
  end.

(** One small client trade: 2 BTC at 30000. *)
Definition slow_feed : list FeedRow :=
  [mk_FeedRow 600 "BTC" "USD" (Qc_of_Z 2) (Qc_of_Z 30000)].

(** A trade in ETH, hedged at once, then a large trade in BTC. *)
Definition flat_then_large_feed : list FeedRow :=
  [mk_FeedRow 600 "ETH" "USD" (Qc_of_Z 100) (Qc_of_Z 1800);
   mk_FeedRow 660 "BTC" "USD" (Qc_of_Z 400) (Qc_of_Z 30000)].

(** A small trade in ETH and a large trade in BTC at the same time. *)
Definition two_asset_feed : list FeedRow :=
  [mk_FeedRow 600 "ETH" "USD" (Qc_of_Z 1) (Qc_of_Z 1800);
   mk_FeedRow 600 "BTC" "USD" (Qc_of_Z 400) (Qc_of_Z 30000)].

(** A client book long 2 BTC and a hedge book short 2 BTC. *)
Definition flat_portfolio : Portfolio :=
  mk_Portfolio "Hedging Portfolio"
    (map book_of
       [("CLIENT BOOK",
         [Trade_init "CLIENT BOOK" 600 "BTC" "USD" (Qc_of_Z 2)
            (Qc_of_Z 30000)]);
        ("HEDGE BOOK",
         [Trade_init "HEDGE BOOK" 600 "BTC" "USD" (Qc_of_Z (-2))
            (Qc_of_Z 30000)])]).

Definition first_cycle (feed : list FeedRow) : Z * Hedger :=
  match Hedger_.cycle 540 (loaded feed) with
  | Ok p => p
  | Raise _ => (540%Z, loaded feed)
  end.

(** The trades of a list that are in an asset. *)
Definition trades_in (asset : string) (ts : list Trade) : list Trade :=
  filter (fun t => String.eqb asset (trade_asset t)) ts.

(** The rows of a frame of client trades that are in an asset. *)
Definition rows_in (asset : string) (rows : list ClientRow) : list ClientRow :=
  filter (fun r => String.eqb asset (feed_asset (row_feed r))) rows.

(** The trade that [book_client_trades] makes of a row. *)
Definition row_trade (book : string) (row : ClientRow) : Trade :=
  let r := row_feed row in
  Trade_init book (feed_time r) (feed_asset r) (feed_denominated r)
    (feed_quantity r) (feed_price r).

(** The loop of [book_client_trades]. *)
Definition book_rows (h : Hedger) (rows : list ClientRow) : Hedger :=
  fold_left
    (fun h row =>
       Hedger_.set_client_book h
         (Book_.trade_add (client_book h)
            (row_trade (book_name (client_book h)) row)))
    rows h.

(** A position by its asset and the trades booked into it. *)
Definition position_of (asset : string) (ts : list Trade) : Position :=
  fold_left Position_.trade_add ts (Position_.init asset).

(** Whether a trade counts as of a time; without a time every trade does. *)
Definition counts_as_of (as_of_time : option Z) (t : Trade) : bool :=
  match as_of_time with
  | None => true
  | Some time => (trade_time t <=? time)%Z
  end.

(** Rows in the order of their times. *)
Definition row_time_le (a b : ClientRow) : Prop := (row_time a <= row_time b)%Z.

(** The rows of the client trades of a hedger in the window
    [(start_time, end_time]]. *)
Definition window_rows (h : Hedger) (start_time end_time : Z)
    : list ClientRow :=
  filter
    (fun r => (start_time <? row_time r)%Z && (row_time r <=? end_time)%Z)
    (client_rows (client_trades h)).

(** The frame that [load_client_trades] keeps of a feed. *)
Definition feed_rows (feed : list FeedRow) : list ClientRow :=
  Hedger_.sort_rows
    (map (fun r => mk_ClientRow r (feed_quantity r * feed_price r)) feed).

(** Trades in the order of their times. *)
Definition trade_time_le (a b : Trade) : Prop :=
  (trade_time a <= trade_time b)%Z.

(** All the trades of the positions of a book, position by position. *)
Definition all_trades (ps : dict Position) : list Trade :=
  List.concat (map (fun kv => position_trades (snd kv)) ps).

(** Every window of [time_window] minutes has a volume below
    [client_volume_max]. *)
Definition always_slow (h : Hedger) : Prop :=
  forall t v,
    Hedger_.recent_client_volume h time_window t = Ok v ->
    v < client_volume_max.

(** A position with one trade of 2 BTC at time 600. *)
Definition one_trade : Trade :=
  Trade_init "CLIENT BOOK" 600 "BTC" "USD" (Qc_of_Z 2) (Qc_of_Z 30000).

Definition long_and_flat : dict Qc :=
  [("BTC", Qc_of_Z 400); ("ETH", Qc_of_Z 0)].

Definition queued_hedger : Hedger :=
  Hedger_.set_execution_queue (Hedger_.init example_prices)
    [[("BTC", Qc_of_Z (-80))]].

Definition stealth_result : pymap * Hedger :=
  match Hedger_.get_hedge_quantities queued_hedger long_and_flat []
          STRATEGY_STEALTH with
  | Ok r => r
  | Raise _ => (mk_pymap true [], queued_hedger)
  end.

Definition final_hedger (fuel : nat) (feed : list FeedRow) : Hedger :=
  match Hedger_.run fuel example_prices feed with
  | Hedger_.Done _ h => h
  | _ => Hedger_.init example_prices
  end.

(** * Properties *)

(** ** Sums *)

Lemma fold_Qcplus_shift (l : list Qc) (a : Qc) :
  fold_left Qcplus l a = a + Qcsum l.
Proof.
  unfold Qcsum. revert a.
  induction l as [|x l IH]; intros a; simpl.
  - ring.
  - rewrite (IH (a + x)), (IH (0 + x)). ring.
Qed.

Lemma Qcsum_cons (x : Qc) (l : list Qc) : Qcsum (x :: l) = x + Qcsum l.
Proof.
  unfold Qcsum at 1. simpl. rewrite fold_Qcplus_shift. ring.
Qed.

Lemma Qcsum_app (l1 l2 : list Qc) : Qcsum (l1 ++ l2) = Qcsum l1 + Qcsum l2.
Proof.
  unfold Qcsum at 1. rewrite fold_left_app.
  rewrite fold_Qcplus_shift. reflexivity.
Qed.

Lemma Qcsum_nil : Qcsum [] = 0.
Proof. reflexivity. Qed.

(** ** The ledger invariant *)

Lemma position_invariant_init (asset : string) :
  position_invariant (Position_.init asset).
Proof. reflexivity. Qed.

Lemma position_invariant_trade_add (p : Position) (t : Trade) :
  position_invariant p -> position_invariant (Position_.trade_add p t).
Proof.
  unfold position_invariant. intros Hp. simpl.
  rewrite map_app, Qcsum_app, Hp. simpl.
  rewrite Qcsum_cons, Qcsum_nil. ring.
Qed.

Lemma position_invariant_booked (ts : list Trade) (p : Position) :
  position_invariant p ->
  position_invariant (fold_left Position_.trade_add ts p).
Proof.
  revert p. induction ts as [|t ts IH]; intros p Hp; simpl.
  - exact Hp.
  - apply IH, position_invariant_trade_add, Hp.
Qed.

(** ** Dictionaries *)

Section DictFacts.

Context {V : Type}.
Implicit Types (d : dict V) (k a : string) (v : V).

Lemma get_set k a v d :
  PyDict.get a (PyDict.set k v d)
  = if String.eqb a k then Some v else PyDict.get a d.
Proof.
  induction d as [|[k' v'] d IH]; simpl.
  - destruct (String.eqb a k); reflexivity.
  - destruct (String.eqb_spec k k') as [->|Hk]; simpl.
    + destruct (String.eqb a k'); reflexivity.
    + destruct (String.eqb_spec a k') as [->|Ha].
      * apply String.eqb_neq in Hk. rewrite String.eqb_sym, Hk. reflexivity.
      * exact IH.
Qed.

Lemma get_None_iff k d : PyDict.get k d = None <-> ~ In k (keys d).
Proof.
  induction d as [|[k' v'] d IH]; simpl.
  - tauto.
  - destruct (String.eqb_spec k k') as [->|Hk].
    + split; [discriminate | intros H; exfalso; apply H; now left].
    + rewrite IH. split; [intros H [E|E]; [congruence | tauto] | tauto].
Qed.

Lemma mem_true_iff k d : PyDict.mem k d = true <-> In k (keys d).
Proof.
  unfold PyDict.mem. destruct (PyDict.get k d) eqn:E.
  - split; [intros _ | reflexivity].
    destruct (in_dec string_dec k (keys d)) as [H|H]; [exact H|].
    apply get_None_iff in H. congruence.
  - apply get_None_iff in E. split; [discriminate | tauto].
Qed.

Lemma get_In k v d : PyDict.get k d = Some v -> In (k, v) d.
Proof.
  induction d as [|[k' v'] d IH]; simpl; [discriminate|].
  destruct (String.eqb_spec k k') as [->|Hk].
  - intros [= ->]. now left.
  - intros H. right. auto.
Qed.

Lemma In_get k v d : NoDup (keys d) -> In (k, v) d -> PyDict.get k d = Some v.
Proof.
  induction d as [|[k' v'] d IH]; simpl; [tauto|].
  intros Hnd [E|Hin].
  - injection E as -> ->. now rewrite String.eqb_refl.
  - inversion Hnd as [|? ? Hk' Hnd']; subst.
    destruct (String.eqb_spec k k') as [->|Hk].
    + exfalso. apply Hk'. change k' with (fst (k', v)). now apply in_map.
    + auto.
Qed.

Lemma set_absent k v d :
  PyDict.get k d = None -> PyDict.set k v d = (d ++ [(k, v)])%list.
Proof.
  induction d as [|[k' v'] d IH]; simpl; [reflexivity|].
  destruct (String.eqb k k'); [discriminate|].
  intros H. now rewrite IH.
Qed.

Lemma keys_set_present k v d :
  PyDict.mem k d = true -> keys (PyDict.set k v d) = keys d.
Proof.
  unfold PyDict.mem.
  induction d as [|[k' v'] d IH]; simpl; [discriminate|].
  destruct (String.eqb k k'); simpl; [reflexivity|].
  intros H. now rewrite IH.
Qed.

Lemma keys_set k v d :
  keys (PyDict.set k v d)
  = if PyDict.mem k d then keys d else (keys d ++ [k])%list.
Proof.
  destruct (PyDict.mem k d) eqn:E.
  - now apply keys_set_present.
  - unfold PyDict.mem in E. destruct (PyDict.get k d) eqn:G; [discriminate|].
    rewrite (set_absent _ _ _ G). unfold keys. now rewrite map_app.
Qed.

Lemma In_keys_set a k v d :
  In a (keys (PyDict.set k v d)) <-> a = k \/ In a (keys d).
Proof.
  rewrite keys_set. destruct (PyDict.mem k d) eqn:E.
  - apply mem_true_iff in E. split; [tauto | intros [->|H]; auto].
  - rewrite in_app_iff. simpl. intuition congruence.
Qed.

Lemma NoDup_keys_set k v d :
  NoDup (keys d) -> NoDup (keys (PyDict.set k v d)).
Proof.
  intros Hnd. rewrite keys_set. destruct (PyDict.mem k d) eqn:E; [exact Hnd|].
  assert (Hk : ~ In k (keys d)).
  { intros H. apply mem_true_iff in H. congruence. }
  apply NoDup_app; [exact Hnd | repeat constructor; simpl; tauto |].
  intros x Hx [<-|[]]. tauto.
Qed.

Lemma set_set k v v' d :
  PyDict.set k v (PyDict.set k v' d) = PyDict.set k v d.
Proof.
  induction d as [|[k0 v0] d IH]; simpl.
  - now rewrite String.eqb_refl.
  - destruct (String.eqb k k0) eqn:E; simpl; rewrite E; [reflexivity|].
    now rewrite IH.
Qed.

Lemma Forall_set (P : string * V -> Prop) k v d :
  Forall P d -> (forall k', k' = k -> P (k', v)) ->
  Forall P (PyDict.set k v d).
Proof.
  intros Hd Hv.
  induction d as [|[k0 v0] d IH]; simpl.
  - constructor; auto.
  - inversion Hd; subst.
    destruct (String.eqb_spec k k0) as [->|Hk]; constructor; auto.
Qed.

End DictFacts.

(** ** Books *)

Lemma Book_trade_add_eq (b : Book) (t : Trade) :
  Book_.trade_add b t
  = mk_Book (book_name b)
      (PyDict.set (trade_asset t)
         (Position_.trade_add
            (match PyDict.get (trade_asset t) (book_positions b) with
             | Some p => p
             | None => Position_.init (trade_asset t)
             end) t)
         (book_positions b)).
Proof.
  unfold Book_.trade_add, PyDict.mem.
  destruct (PyDict.get (trade_asset t) (book_positions b)) as [p|] eqn:E.
  - rewrite E. reflexivity.
  - rewrite get_set, String.eqb_refl, set_set. reflexivity.
Qed.

Lemma book_wf_init (name : string) : book_wf (Book_.init name).
Proof. split; constructor. Qed.

Lemma book_wf_trade_add (b : Book) (t : Trade) :
  book_wf b -> book_wf (Book_.trade_add b t).
Proof.
  intros [Hnd Hall]. rewrite Book_trade_add_eq. split; simpl.
  - now apply NoDup_keys_set.
  - apply Forall_set; [exact Hall|].
    intros k' ->. unfold position_wf. simpl.
    destruct (PyDict.get (trade_asset t) (book_positions b)) as [p|] eqn:E.
    + apply get_In in E. rewrite Forall_forall in Hall.
      destruct (Hall _ E) as (Ha & _ & Hi). simpl in Ha, Hi.
      split; [exact Ha|]. split; [|now apply position_invariant_trade_add].
      intros H. now apply app_eq_nil in H as [_ H].
    + split; [reflexivity|]. split.
      * intros H. now apply app_eq_nil in H as [_ H].
      * apply position_invariant_trade_add, position_invariant_init.
Qed.

Lemma book_wf_booked (ts : list Trade) (b : Book) :
  book_wf b -> book_wf (fold_left Book_.trade_add ts b).
Proof.
  revert b. induction ts as [|t ts IH]; intros b Hb; simpl.
  - exact Hb.
  - apply IH, book_wf_trade_add, Hb.
Qed.

(** C4. Whatever trades are booked, into a position directly or through a
    book, after each booking (after the first [n] trades, for every [n]) the
    quantity of the position is the sum of the quantities of its trades. *)
Theorem C4_ledger_invariant (asset name : string) (ts : list Trade) (n : nat) :
  position_invariant
    (fold_left Position_.trade_add (firstn n ts) (Position_.init asset))
  /\ Forall (fun kv => position_invariant (snd kv))
       (book_positions
          (fold_left Book_.trade_add (firstn n ts) (Book_.init name))).
Proof.
  split.
  - apply position_invariant_booked, position_invariant_init.
  - destruct (book_wf_booked (firstn n ts) _ (book_wf_init name)) as [_ H].
    eapply Forall_impl; [|exact H].
    intros kv (_ & _ & Hi). exact Hi.
Qed.

(** ** Positions as of a time *)

Lemma get_quantity_as_of (p : Position) (t : Z) :
  position_trades p <> [] ->
  Position_.get_quantity p (Some t)
  = Ok (Qcsum (map trade_quantity (trades_as_of p t))).
Proof.
  intros Hne. unfold Position_.get_quantity, Position_.get_trades,
    Position_.get_trades_as_dataframe.
  destruct (position_trades p) as [|x xs] eqn:E; [congruence|].
  unfold trades_as_of. rewrite E. reflexivity.
Qed.

Lemma get_quantity_empty (p : Position) (t : Z) :
  position_trades p = [] ->
  Position_.get_quantity p (Some t) = Raise (KeyError "trade_time").
Proof.
  intros E. unfold Position_.get_quantity, Position_.get_trades,
    Position_.get_trades_as_dataframe. rewrite E. reflexivity.
Qed.

Lemma trades_as_of_stable (p : Position) (t1 t2 : Z) :
  (t1 <= t2)%Z ->
  (forall x, In x (position_trades p) ->
             ~ (t1 < trade_time x <= t2)%Z) ->
  trades_as_of p t1 = trades_as_of p t2.
Proof.
  intros Hle Hno. unfold trades_as_of. apply filter_ext_in.
  intros x Hx. specialize (Hno x Hx).
  destruct (Z.leb_spec (trade_time x) t1), (Z.leb_spec (trade_time x) t2);
    try reflexivity; lia.
Qed.

(** As-of monotonicity: without a trade in [(t1, t2]] the two as-of
    quantities are the same result (for a position without trades, the same
    error). *)
Lemma get_quantity_stable (p : Position) (t1 t2 : Z) :
  (t1 <= t2)%Z ->
  (forall x, In x (position_trades p) ->
             ~ (t1 < trade_time x <= t2)%Z) ->
  Position_.get_quantity p (Some t1) = Position_.get_quantity p (Some t2).
Proof.
  intros Hle Hno.
  assert (Hd : position_trades p = [] \/ position_trades p <> []).
  { destruct (position_trades p); [now left | now right]. }
  destruct Hd as [E|E].
  - now rewrite !get_quantity_empty.
  - rewrite !get_quantity_as_of by exact E.
    now rewrite (trades_as_of_stable p t1 t2 Hle Hno).
Qed.

Lemma trades_as_of_all (p : Position) (t : Z) :
  (forall x, In x (position_trades p) -> (trade_time x <= t)%Z) ->
  trades_as_of p t = position_trades p.
Proof.
  intros Hall. unfold trades_as_of.
  induction (position_trades p) as [|x xs IH]; simpl; [reflexivity|].
  destruct (Z.leb_spec (trade_time x) t) as [_|Hlt].
  - f_equal. apply IH. intros y Hy. apply Hall. now right.
  - specialize (Hall x (or_introl eq_refl)). lia.
Qed.

(** The running quantity and the recomputation agree on a position with
    trades, once the time covers them all. *)
Lemma get_quantity_live_as_of (p : Position) (t : Z) :
  position_invariant p ->
  position_trades p <> [] ->
  (forall x, In x (position_trades p) -> (trade_time x <= t)%Z) ->
  Position_.get_quantity p None = Position_.get_quantity p (Some t).
Proof.
  intros Hinv Hne Hall. rewrite get_quantity_as_of by exact Hne.
  rewrite trades_as_of_all by exact Hall. simpl. now rewrite Hinv.
Qed.

(** C6. For a position with trades the as-of quantity is the sum of the
    quantities of exactly the trades whose time is at most [t]; for a
    position that holds no trade yet it is not that sum (zero): the column
    lookup on the frame without columns raises [KeyError]. *)
Theorem C6_get_quantity_as_of (p : Position) (t : Z) :
  Position_.get_quantity p (Some t)
  = match position_trades p with
    | [] => Raise (KeyError "trade_time")
    | _ :: _ => Ok (Qcsum (map trade_quantity (trades_as_of p t)))
    end.
Proof.
  destruct (position_trades p) as [|x xs] eqn:E.
  - apply get_quantity_empty, E.
  - apply get_quantity_as_of. congruence.
Qed.

(** C10. On a position that holds no trade yet every time covers all
    booked trades, the running quantity is 0, and the recomputation raises
    [KeyError] instead of returning 0. *)
Theorem C10_live_and_as_of_without_trades (asset : string) (t : Z) :
  Position_.get_quantity (Position_.init asset) None = Ok 0
  /\ Position_.get_quantity (Position_.init asset) (Some t)
     = Raise (KeyError "trade_time")
  /\ Forall (fun x => (trade_time x <= t)%Z)
       (position_trades (Position_.init asset)).
Proof. repeat split. constructor. Qed.

(** ** Strategy selection *)

Lemma Qcltb_true_iff (x y : Qc) : Qcltb x y = true <-> x < y.
Proof.
  unfold Qcltb. rewrite negb_true_iff.
  destruct (Qle_bool y x) eqn:E.
  - apply Qle_bool_iff in E. split; [discriminate|].
    intros H. exfalso. apply (Qlt_not_le _ _ H E).
  - split; [intros _ | reflexivity].
    apply Qnot_le_lt. intros H. apply Qle_bool_iff in H. congruence.
Qed.

(** C3. Whatever the time and the notional change, a rolling client volume
    over the trailing [time_window] minutes below [client_volume_max] makes
    the selector return SLOW. *)
Theorem C3_slow_dominates (h : Hedger) (hedger_time : Z)
    (client_notional_change : dict Qc) (volume : Qc) :
  Hedger_.recent_client_volume h time_window hedger_time = Ok volume ->
  volume < client_volume_max ->
  Hedger_.get_current_strategy h hedger_time client_notional_change
  = Ok STRATEGY_SLOW.
Proof.
  intros Hv Hlt. unfold Hedger_.get_current_strategy. rewrite Hv. simpl.
  apply Qcltb_true_iff in Hlt. now rewrite Hlt.
Qed.

(** ** Unknown strategies *)

Lemma supported_iff (s : string) :
  Hedger_.supported s = true <-> In s SUPPORTED_STRATEGIES.
Proof.
  unfold Hedger_.supported. rewrite existsb_exists. split.
  - intros (x & Hx & E). apply String.eqb_eq in E. now subst.
  - intros H. exists s. split; [exact H | apply String.eqb_refl].
Qed.

Lemma get_hedge_quantities_unknown (h : Hedger) (cur chg : dict Qc)
    (s : string) :
  ~ In s SUPPORTED_STRATEGIES ->
  Hedger_.get_hedge_quantities h cur chg s
  = Raise (Exception ("Unknown hedging strategy " ++ s)).
Proof.
  intros H. unfold Hedger_.get_hedge_quantities.
  destruct (Hedger_.supported s) eqn:E; [|reflexivity].
  apply supported_iff in E. contradiction.
Qed.

Lemma get_hedge_quantities_known (h : Hedger) (cur chg : dict Qc)
    (s : string) :
  In s SUPPORTED_STRATEGIES ->
  exists r, Hedger_.get_hedge_quantities h cur chg s = Ok r.
Proof.
  intros H. unfold Hedger_.get_hedge_quantities.
  apply supported_iff in H as E. rewrite E. simpl negb. cbv iota.
  destruct H as [<-|[<-|[<-|[]]]]; simpl;
    match goal with
    | |- context [match ?q with [] => _ | _ :: _ => _ end] =>
        destruct q; eexists; reflexivity
    end.
Qed.

(** The selector returns one of the three labels, or fails on the column
    lookup of a frame of client trades without columns. *)
Lemma get_current_strategy_results (h : Hedger) (t : Z) (c : dict Qc) :
  (client_trades h = NoColumns
   /\ Hedger_.get_current_strategy h t c = Raise (KeyError "trade_time"))
  \/ (exists s, Hedger_.get_current_strategy h t c = Ok s
                /\ In s SUPPORTED_STRATEGIES).
Proof.
  unfold Hedger_.get_current_strategy, Hedger_.recent_client_volume,
    Hedger_.client_trades_by_time.
  simpl. destruct (client_trades h) as [|rows]; simpl.
  - left. now split.
  - right.
    destruct (Qcltb _ client_volume_max);
      [|destruct (Qcltb client_volume_trigger _)];
      eexists; (split; [reflexivity|]); simpl; tauto.
Qed.

(** C7. The hedge quantity calculator raises "Unknown hedging strategy"
    exactly for the labels outside SLOW, NORMAL, STEALTH, so that no such
    error is raised for a label inside; the strategy selector takes no
    label and never raises that exception, whatever the label named in
    it. *)
Theorem C7_unknown_strategy (h : Hedger) (cur chg : dict Qc) (s : string) :
  (Hedger_.get_hedge_quantities h cur chg s
   = Raise (Exception ("Unknown hedging strategy " ++ s))
   <-> ~ In s SUPPORTED_STRATEGIES)
  /\ (forall (t : Z) (c : dict Qc) (label : string),
        Hedger_.get_current_strategy h t c
        <> Raise (Exception ("Unknown hedging strategy " ++ label))).
Proof.
  split.
  - destruct (in_dec string_dec s SUPPORTED_STRATEGIES) as [Hin|Hout].
    + destruct (get_hedge_quantities_known h cur chg s Hin) as [r Hr].
      split; [rewrite Hr; discriminate | tauto].
    + pose proof (get_hedge_quantities_unknown h cur chg s Hout) as Hr.
      split; [intros _; exact Hout | intros _; exact Hr].
  - intros t c label.
    destruct (get_current_strategy_results h t c)
      as [[_ ->]|(s' & -> & _)]; discriminate.
Qed.

(** The selector cannot fail with "Unknown hedging strategy" for a label
    outside the set: no label reaches it, and on the hedger that has loaded
    one small client trade it returns SLOW at the time of that trade, where
    the error for the label BAD is wanted. *)
Lemma C7_selector_raises_no_unknown_strategy :
  ~ (forall s : string,
       ~ In s SUPPORTED_STRATEGIES ->
       forall (h : Hedger) (t : Z) (c : dict Qc),
         Hedger_.get_current_strategy h t c
         = Raise (Exception ("Unknown hedging strategy " ++ s))).
Proof.
  intros H.
  specialize (H "BAD").
  assert (Hout : ~ In "BAD" SUPPORTED_STRATEGIES).
  { simpl. intros [E|[E|[E|[]]]]; discriminate. }
  specialize (H Hout (loaded slow_feed) 600%Z []).
  vm_compute in H. discriminate.
Qed.

(** ** STEALTH chunks *)

Lemma fold_set_fresh {V W : Type} (f : string * V -> W) (cur : dict V)
    (acc : dict W) :
  NoDup (keys cur) ->
  (forall k, In k (keys cur) -> ~ In k (keys acc)) ->
  fold_left (fun d kv => PyDict.set (fst kv) (f kv) d) cur acc
  = (acc ++ map (fun kv => (fst kv, f kv)) cur)%list.
Proof.
  revert acc. induction cur as [|[k v] cur IH]; intros acc Hnd Hfresh; simpl.
  - now rewrite app_nil_r.
  - inversion Hnd as [|? ? Hk Hnd']; subst.
    rewrite set_absent.
    + rewrite IH; [now rewrite <- app_assoc | exact Hnd' |].
      intros k' Hk'. unfold keys. rewrite map_app, in_app_iff. simpl.
      intros [H|[<-|[]]]; [|contradiction].
      apply (Hfresh k'); [now right | exact H].
    + apply get_None_iff. apply Hfresh. now left.
Qed.

Lemma combine_repeat {A B : Type} (a : A) (b : B) (n : nat) :
  combine (repeat a n) (repeat b n) = repeat (a, b) n.
Proof. induction n; simpl; [reflexivity | now rewrite IHn]. Qed.

(** Interleaving lists of [n] copies gives [n] copies of one round. *)
Lemma zip_star_repeat {A : Type} (es : list A) (n : nat) :
  es <> [] ->
  Hedger_.zip_star (map (fun e => repeat e n) es) = repeat es n.
Proof.
  induction es as [|e es IH]; [congruence|]. intros _.
  destruct es as [|e' es].
  - simpl. apply map_repeat.
  - change (Hedger_.zip_star (map (fun e0 => repeat e0 n) (e :: e' :: es)))
      with (map (fun p => fst p :: snd p)
              (combine (repeat e n)
                 (Hedger_.zip_star (map (fun e0 => repeat e0 n) (e' :: es))))).
    rewrite IH by discriminate.
    rewrite combine_repeat. apply map_repeat.
Qed.

Lemma stealth_chunks_repeat (asset : string) (q : Qc) :
  Hedger_.stealth_chunks asset q
  = repeat (stealth_hedge (asset, q)) execution_chunks.
Proof. reflexivity. Qed.

(** The queue entries of a STEALTH decision: [execution_chunks] rounds, each
    with one chunk per asset of the snapshot, in the order of the snapshot. *)
Lemma get_hedge_quantities_stealth_rounds (cur : dict Qc) :
  NoDup (keys cur) ->
  Hedger_.get_hedge_quantities_stealth cur
  = List.concat (repeat (map stealth_hedge cur) execution_chunks).
Proof.
  intros Hnd. unfold Hedger_.get_hedge_quantities_stealth.
  rewrite (fold_set_fresh
             (fun kv => Hedger_.stealth_chunks (fst kv) (snd kv)) cur []
             Hnd (fun _ _ H => H)).
  rewrite app_nil_l. unfold PyDict.values. rewrite map_map. cbn [snd].
  destruct cur as [|kv cur]; [reflexivity|].
  rewrite <- (zip_star_repeat (map stealth_hedge (kv :: cur))) by discriminate.
  rewrite map_map. reflexivity.
Qed.

Lemma length_concat_repeat {A : Type} (l : list A) (n : nat) :
  List.length (List.concat (repeat l n)) = (n * List.length l)%nat.
Proof.
  induction n; simpl; [reflexivity|].
  now rewrite length_app, IHn.
Qed.

Lemma length_get_hedge_quantities_stealth (cur : dict Qc) :
  NoDup (keys cur) ->
  List.length (Hedger_.get_hedge_quantities_stealth cur)
  = (execution_chunks * List.length cur)%nat.
Proof.
  intros Hnd. rewrite get_hedge_quantities_stealth_rounds by exact Hnd.
  now rewrite length_concat_repeat, length_map.
Qed.

Lemma chunk_total_app (asset : string) (q1 q2 : list (dict Qc)) :
  chunk_total asset (q1 ++ q2) = chunk_total asset q1 + chunk_total asset q2.
Proof. unfold chunk_total. now rewrite map_app, Qcsum_app. Qed.

Lemma chunk_count_app (asset : string) (q1 q2 : list (dict Qc)) :
  chunk_count asset (q1 ++ q2)
  = (chunk_count asset q1 + chunk_count asset q2)%nat.
Proof. unfold chunk_count. now rewrite filter_app, length_app. Qed.

Lemma chunk_count_rounds (asset : string) (round : list (dict Qc)) (n : nat) :
  chunk_count asset (List.concat (repeat round n))
  = (n * chunk_count asset round)%nat.
Proof.
  induction n; simpl; [reflexivity|].
  now rewrite chunk_count_app, IHn.
Qed.

Lemma Qc_of_Z_chunks_nonzero : Qc_of_Z (Z.of_nat execution_chunks) <> 0.
Proof. intros H. apply (f_equal this) in H. vm_compute in H. discriminate. Qed.

Lemma Qc_of_Z_chunks :
  Qc_of_Z (Z.of_nat execution_chunks) = 1 + 1 + 1 + 1 + 1.
Proof. apply Qc_is_canon. reflexivity. Qed.

Lemma Qc_of_Z_minus_one : Qc_of_Z (-1) = - (1).
Proof. apply Qc_is_canon. reflexivity. Qed.

Lemma Qc_of_Z_one : Qc_of_Z 1 = 1.
Proof. apply Qc_is_canon. reflexivity. Qed.

Lemma Counter_get_stealth_hedge (asset : string) (kv : string * Qc) :
  Counter.get asset (stealth_hedge kv)
  = if String.eqb asset (fst kv)
    then (if Qle_bool 0 (snd kv) then Qc_of_Z (-1) else Qc_of_Z 1) * snd kv
         / Qc_of_Z (Z.of_nat execution_chunks)
    else 0.
Proof.
  unfold Counter.get, stealth_hedge. simpl.
  destruct (String.eqb asset (fst kv)); reflexivity.
Qed.

Lemma round_without_asset (asset : string) (cur : dict Qc) :
  ~ In asset (keys cur) ->
  chunk_total asset (map stealth_hedge cur) = 0
  /\ chunk_count asset (map stealth_hedge cur) = 0%nat.
Proof.
  induction cur as [|[k v] cur IH]; intros Hout; [now split|].
  simpl in Hout. destruct IH as [IHt IHc]; [tauto|].
  assert (Hk : String.eqb asset k = false).
  { apply String.eqb_neq. intros ->. tauto. }
  split.
  - change (map stealth_hedge ((k, v) :: cur))
      with ([stealth_hedge (k, v)] ++ map stealth_hedge cur)%list.
    rewrite chunk_total_app, IHt. unfold chunk_total. simpl map.
    rewrite Qcsum_cons, Qcsum_nil, Counter_get_stealth_hedge. simpl fst.
    rewrite Hk. ring.
  - unfold chunk_count in *. simpl. unfold PyDict.mem at 1. simpl.
    rewrite Hk. exact IHc.
Qed.

Lemma round_with_asset (asset : string) (q : Qc) (cur : dict Qc) :
  NoDup (keys cur) ->
  PyDict.get asset cur = Some q ->
  chunk_total asset (map stealth_hedge cur)
  = (if Qle_bool 0 q then Qc_of_Z (-1) else Qc_of_Z 1) * q
    / Qc_of_Z (Z.of_nat execution_chunks)
  /\ chunk_count asset (map stealth_hedge cur) = 1%nat.
Proof.
  induction cur as [|[k v] cur IH]; intros Hnd Hget; [discriminate|].
  inversion Hnd as [|? ? Hk Hnd']; subst.
  change (map stealth_hedge ((k, v) :: cur))
    with ([stealth_hedge (k, v)] ++ map stealth_hedge cur)%list.
  rewrite chunk_total_app, chunk_count_app.
  unfold chunk_total at 1, chunk_count at 1. simpl map. simpl filter.
  rewrite Qcsum_cons, Qcsum_nil, Counter_get_stealth_hedge.
  unfold PyDict.mem at 1. simpl PyDict.get. simpl fst. simpl snd.
  simpl in Hget.
  destruct (String.eqb_spec asset k) as [->|Hne].
  - injection Hget as ->.
    destruct (round_without_asset k cur Hk) as [-> ->].
    split; [ring | reflexivity].
  - destruct (IH Hnd' Hget) as [-> ->].
    split; [ring | reflexivity].
Qed.

(** What STEALTH emits for an asset of the snapshot: [execution_chunks]
    entries that sum to the negated position when the position is long or
    flat, and to the position itself when it is short. *)
Lemma stealth_chunks_of_asset (cur : dict Qc) (asset : string) (q : Qc) :
  NoDup (keys cur) ->
  PyDict.get asset cur = Some q ->
  chunk_count asset (Hedger_.get_hedge_quantities_stealth cur)
  = execution_chunks
  /\ chunk_total asset (Hedger_.get_hedge_quantities_stealth cur)
     = if Qle_bool 0 q then - q else q.
Proof.
  intros Hnd Hget.
  rewrite get_hedge_quantities_stealth_rounds by exact Hnd.
  destruct (round_with_asset asset q cur Hnd Hget) as [Ht Hc].
  split.
  - rewrite chunk_count_rounds, Hc. apply Nat.mul_1_r.
  - unfold execution_chunks at 1. simpl repeat. simpl List.concat.
    rewrite !chunk_total_app, Ht.
    change (chunk_total asset []) with 0.
    rewrite Qc_of_Z_chunks, Qc_of_Z_minus_one, Qc_of_Z_one.
    assert (Hnz : 1 + 1 + 1 + 1 + 1 <> 0).
    { rewrite <- Qc_of_Z_chunks. exact Qc_of_Z_chunks_nonzero. }
    destruct (Qle_bool 0 q); field; exact Hnz.
Qed.

Ltac Qc_closed := apply Qc_is_canon; vm_compute; reflexivity.

(** Closed equalities between evaluated values that hold rationals. *)
Ltac frame_closed :=
  repeat first [reflexivity | Qc_closed | f_equal].

(** C1. For the snapshot BTC: -10 (a short position) STEALTH emits five
    chunks of -2 each: they sum to -10, the position itself, and not to
    10, its negation. *)
Theorem C1_stealth_chunks_of_short_position :
  let queue := Hedger_.get_hedge_quantities_stealth [("BTC", Qc_of_Z (-10))] in
  chunk_count "BTC" queue = execution_chunks
  /\ Forall (fun hedge => hedge = [("BTC", Qc_of_Z (-2))]) queue
  /\ chunk_total "BTC" queue = Qc_of_Z (-10)
  /\ chunk_total "BTC" queue <> - Qc_of_Z (-10).
Proof.
  intros queue.
  assert (Hnd : NoDup (keys [("BTC", Qc_of_Z (-10))])).
  { repeat constructor. simpl. tauto. }
  destruct (stealth_chunks_of_asset _ "BTC" (Qc_of_Z (-10)) Hnd eq_refl)
    as [Hc Ht].
  fold queue in Hc, Ht.
  assert (Hq : chunk_total "BTC" queue = Qc_of_Z (-10)).
  { rewrite Ht. reflexivity. }
  split; [exact Hc|]. split; [|split; [exact Hq|]].
  - unfold queue. rewrite get_hedge_quantities_stealth_rounds by exact Hnd.
    simpl. repeat constructor; unfold stealth_hedge; simpl;
      do 2 f_equal; Qc_closed.
  - rewrite Hq. intros H. apply (f_equal this) in H. vm_compute in H.
    discriminate.
Qed.

(** ** The front of the queue *)

(** With SLOW and STEALTH the result is a counter that starts empty: the
    front entry is removed from the queue and is the whole result. *)
Lemma get_hedge_quantities_slow_pops (h : Hedger) (cur chg : dict Qc)
    (front : dict Qc) (rest : list (dict Qc)) :
  execution_queue h = front :: rest ->
  Hedger_.get_hedge_quantities h cur chg STRATEGY_SLOW
  = Ok (mk_pymap true (PyDict.update [] front),
        Hedger_.set_execution_queue h rest).
Proof.
  intros E. unfold Hedger_.get_hedge_quantities. simpl. rewrite E.
  reflexivity.
Qed.

Lemma get_hedge_quantities_stealth_pops (h : Hedger) (cur chg : dict Qc)
    (front : dict Qc) (rest : list (dict Qc)) :
  execution_queue h = front :: rest ->
  Hedger_.get_hedge_quantities h cur chg STRATEGY_STEALTH
  = Ok (mk_pymap true (PyDict.update [] front),
        Hedger_.set_execution_queue h
          (rest ++ Hedger_.get_hedge_quantities_stealth cur)%list).
Proof.
  intros E. unfold Hedger_.get_hedge_quantities. simpl. rewrite E.
  reflexivity.
Qed.

(** With NORMAL the result is the plain dict of the NORMAL quantities, and
    its [update] replaces. *)
Lemma get_hedge_quantities_normal_pops (h : Hedger) (cur chg : dict Qc)
    (front : dict Qc) (rest : list (dict Qc)) :
  execution_queue h = front :: rest ->
  Hedger_.get_hedge_quantities h cur chg STRATEGY_NORMAL
  = Ok (mk_pymap false
          (PyDict.update (Hedger_.get_hedge_quantities_normal chg) front),
        Hedger_.set_execution_queue h rest).
Proof.
  intros E. unfold Hedger_.get_hedge_quantities. simpl. rewrite E.
  reflexivity.
Qed.

(** C2. With NORMAL, a client position change of BTC: 10 and the queue
    entry BTC: -80 at the front, the entry is removed from the queue, the
    NORMAL quantity of BTC is -10, and the result maps BTC to -80: the
    popped quantity has replaced the NORMAL quantity, their sum is -90. *)
Theorem C2_normal_update_replaces :
  let h := Hedger_.set_execution_queue (Hedger_.init [])
             [[("BTC", Qc_of_Z (-80))]] in
  let change := [("BTC", Qc_of_Z 10)] in
  exists hedge_quantities h',
    Hedger_.get_hedge_quantities h [] change STRATEGY_NORMAL
    = Ok (hedge_quantities, h')
    /\ execution_queue h' = []
    /\ PyDict.get "BTC" (Hedger_.get_hedge_quantities_normal change)
       = Some (Qc_of_Z (-10))
    /\ PyDict.get "BTC" (items hedge_quantities) = Some (Qc_of_Z (-80))
    /\ Qc_of_Z (-80) <> Qc_of_Z (-10) + Qc_of_Z (-80).
Proof.
  intros h change.
  eexists. eexists. split.
  - apply (get_hedge_quantities_normal_pops h [] change _ [] eq_refl).
  - split; [reflexivity|]. split; [|split].
    + vm_compute. f_equal; try Qc_closed.
    + vm_compute. f_equal; try Qc_closed.
    + intros H. apply (f_equal this) in H. vm_compute in H. discriminate.
Qed.

(** ** Counters *)

Lemma get_update {V : Type} (a : string) (other d : dict V) :
  NoDup (keys other) ->
  PyDict.get a (PyDict.update d other)
  = match PyDict.get a other with
    | Some v => Some v
    | None => PyDict.get a d
    end.
Proof.
  unfold PyDict.update. revert d.
  induction other as [|[k v] other IH]; intros d Hnd; simpl; [reflexivity|].
  inversion Hnd as [|? ? Hk Hnd']; subst.
  rewrite IH by exact Hnd'. rewrite get_set.
  destruct (String.eqb_spec a k) as [->|Hne]; [|reflexivity].
  apply get_None_iff in Hk. now rewrite Hk.
Qed.

Lemma NoDup_keys_update {V : Type} (other d : dict V) :
  NoDup (keys d) -> NoDup (keys (PyDict.update d other)).
Proof.
  unfold PyDict.update. revert d.
  induction other as [|[k v] other IH]; intros d Hnd; simpl; [exact Hnd|].
  apply IH, NoDup_keys_set, Hnd.
Qed.

Lemma get_fold_add (a : string) (other c : dict Qc) :
  NoDup (keys other) ->
  PyDict.get a (fold_left Counter.add other c)
  = match PyDict.get a other with
    | Some v => Some (v + Counter.get a c)
    | None => PyDict.get a c
    end.
Proof.
  revert c.
  induction other as [|[k v] other IH]; intros c Hnd; simpl; [reflexivity|].
  inversion Hnd as [|? ? Hk Hnd']; subst.
  rewrite IH by exact Hnd'. unfold Counter.add at 1 2. simpl fst. simpl snd.
  unfold Counter.get at 1. rewrite !get_set.
  destruct (String.eqb_spec a k) as [->|Hne]; [|reflexivity].
  apply get_None_iff in Hk. now rewrite Hk.
Qed.

Lemma NoDup_keys_fold_add (other c : dict Qc) :
  NoDup (keys c) -> NoDup (keys (fold_left Counter.add other c)).
Proof.
  revert c.
  induction other as [|[k v] other IH]; intros c Hnd; simpl; [exact Hnd|].
  apply IH, NoDup_keys_set, Hnd.
Qed.

Lemma get_Counter_update (a : string) (other c : dict Qc) :
  NoDup (keys other) ->
  PyDict.get a (Counter.update c other)
  = match PyDict.get a other with
    | Some v => Some (v + Counter.get a c)
    | None => PyDict.get a c
    end.
Proof.
  intros Hnd. unfold Counter.update. destruct c as [|kv c].
  - rewrite get_update by exact Hnd.
    destruct (PyDict.get a other); [|reflexivity].
    f_equal. unfold Counter.get. simpl. ring.
  - now apply get_fold_add.
Qed.

Lemma NoDup_keys_Counter_update (other c : dict Qc) :
  NoDup (keys c) -> NoDup (keys (Counter.update c other)).
Proof.
  intros Hnd. unfold Counter.update. destruct c.
  - now apply NoDup_keys_update.
  - now apply NoDup_keys_fold_add.
Qed.

Lemma Counter_get_update (a : string) (other c : dict Qc) :
  NoDup (keys other) ->
  Counter.get a (Counter.update c other)
  = Counter.get a c + Counter.get a other.
Proof.
  intros Hnd. unfold Counter.get at 1 3.
  rewrite get_Counter_update by exact Hnd.
  destruct (PyDict.get a other); [ring|].
  unfold Counter.get. ring.
Qed.

Lemma mem_Counter_update (a : string) (other c : dict Qc) :
  NoDup (keys other) ->
  PyDict.mem a (Counter.update c other)
  = PyDict.mem a c || PyDict.mem a other.
Proof.
  intros Hnd. unfold PyDict.mem.
  rewrite get_Counter_update by exact Hnd.
  destruct (PyDict.get a other), (PyDict.get a c); reflexivity.
Qed.

Lemma get_of_mem_Counter_get (a : string) (c : dict Qc) :
  PyDict.get a c = if PyDict.mem a c then Some (Counter.get a c) else None.
Proof.
  unfold PyDict.mem, Counter.get. destruct (PyDict.get a c); reflexivity.
Qed.

(** ** Net positions *)

Lemma get_quantity_returns (p : Position) (as_of_time : option Z) :
  position_trades p <> [] ->
  exists q, Position_.get_quantity p as_of_time = Ok q.
Proof.
  intros Hne. destruct as_of_time as [t|].
  - rewrite get_quantity_as_of by exact Hne. eexists; reflexivity.
  - eexists; reflexivity.
Qed.

Lemma get_positions_items_spec (as_of_time : option Z) (ps : dict Position)
    (acc : dict Qc) :
  NoDup (keys ps) ->
  Forall position_wf ps ->
  NoDup (keys acc) ->
  exists d,
    Book_.get_positions_items ps as_of_time acc = Ok d
    /\ NoDup (keys d)
    /\ forall a,
         PyDict.get a d
         = match PyDict.get a ps with
           | Some p =>
               match Position_.get_quantity p as_of_time with
               | Ok q => Some q
               | Raise _ => None
               end
           | None => PyDict.get a acc
           end.
Proof.
  revert acc.
  induction ps as [|[k p] ps IH]; intros acc Hnd Hwf Hacc; simpl.
  - exists acc. split; [reflexivity|]. split; [exact Hacc|]. reflexivity.
  - inversion Hnd as [|? ? Hk Hnd']; subst.
    inversion Hwf as [|? ? Hp Hwf']; subst.
    destruct Hp as (_ & Hne & _). simpl in Hne.
    destruct (get_quantity_returns p as_of_time Hne) as [q Hq].
    rewrite Hq. simpl.
    destruct (IH (PyDict.set k q acc) Hnd' Hwf' (NoDup_keys_set k q acc Hacc))
      as (d & Hd & Hdn & Hget).
    exists d. split; [exact Hd|]. split; [exact Hdn|].
    intros a. rewrite Hget, get_set. simpl.
    destruct (String.eqb_spec a k) as [->|Hne'].
    + apply get_None_iff in Hk. now rewrite Hk, Hq.
    + reflexivity.
Qed.

Lemma get_positions_spec (b : Book) (as_of_time : option Z) :
  book_wf b ->
  exists d,
    Book_.get_positions b as_of_time = Ok d
    /\ NoDup (keys d)
    /\ forall a,
         Counter.get a d = book_quantity b as_of_time a
         /\ PyDict.mem a d = PyDict.mem a (book_positions b).
Proof.
  intros [Hnd Hwf].
  destruct (get_positions_items_spec as_of_time (book_positions b) []
              Hnd Hwf (NoDup_nil _)) as (d & Hd & Hdn & Hget).
  exists d. split; [exact Hd|]. split; [exact Hdn|].
  intros a. unfold Counter.get, PyDict.mem, book_quantity.
  rewrite Hget.
  destruct (PyDict.get a (book_positions b)) as [p|] eqn:E; [|now split].
  apply get_In in E. rewrite Forall_forall in Hwf.
  destruct (Hwf _ E) as (_ & Hne & _). simpl in Hne.
  destruct (get_quantity_returns p as_of_time Hne) as [q Hq].
  rewrite Hq. now split.
Qed.

Lemma net_positions_books_spec (as_of_time : option Z) (books : list Book)
    (counter : dict Qc) :
  Forall book_wf books ->
  NoDup (keys counter) ->
  exists c,
    Portfolio_.net_positions_books books as_of_time counter = Ok c
    /\ NoDup (keys c)
    /\ forall a,
         Counter.get a c
         = Counter.get a counter
           + Qcsum (map (fun b => book_quantity b as_of_time a) books)
         /\ PyDict.mem a c
            = PyDict.mem a counter
              || existsb (fun b => PyDict.mem a (book_positions b)) books.
Proof.
  revert counter.
  induction books as [|b books IH]; intros counter Hwf Hnd; simpl.
  - exists counter. split; [reflexivity|]. split; [exact Hnd|].
    intros a. rewrite Qcsum_nil, orb_false_r. split; [ring | reflexivity].
  - inversion Hwf as [|? ? Hb Hwf']; subst.
    destruct (get_positions_spec b as_of_time Hb) as (d & Hd & Hdn & Hget).
    rewrite Hd. simpl.
    destruct (IH (Counter.update counter d) Hwf'
                (NoDup_keys_Counter_update d counter Hnd))
      as (c & Hc & Hcn & Hcget).
    exists c. split; [exact Hc|]. split; [exact Hcn|].
    intros a. destruct (Hcget a) as [Hv Hm]. destruct (Hget a) as [Hdv Hdm].
    split.
    + rewrite Hv, Counter_get_update, Hdv, Qcsum_cons by exact Hdn. ring.
    + rewrite Hm, mem_Counter_update, Hdm by exact Hdn.
      now rewrite orb_assoc.
Qed.

(** The net positions of well-formed books. *)
Lemma net_positions_additive (p : Portfolio) (as_of_time : option Z) :
  Forall book_wf (portfolio_books p) ->
  exists c,
    Portfolio_.net_positions p as_of_time = Ok c
    /\ forall asset,
         let total :=
           Qcsum (map (fun b => book_quantity b as_of_time asset)
                    (portfolio_books p)) in
         Counter.get asset c = total
         /\ PyDict.get asset c
            = if existsb (fun b => PyDict.mem asset (book_positions b))
                   (portfolio_books p)
              then Some total else None.
Proof.
  intros Hwf.
  destruct (net_positions_books_spec as_of_time (portfolio_books p) []
              Hwf (NoDup_nil _)) as (c & Hc & _ & Hget).
  exists c. split; [exact Hc|].
  intros asset total. destruct (Hget asset) as [Hv Hm].
  assert (Ht : Counter.get asset c = total).
  { rewrite Hv. unfold total, Counter.get. simpl. ring. }
  split; [exact Ht|].
  rewrite get_of_mem_Counter_get, Hm, Ht. reflexivity.
Qed.

(** C5. For every portfolio of books, each holding the trades booked into
    it, and every asset, with or without an as-of time: the net positions
    map the asset to the sum over the member books of the book's quantity
    of the asset, and the key of the asset is present as soon as one member
    book has trades in it, also when the sum is zero (and absent
    otherwise, where the counter reads 0). *)
Theorem C5_portfolio_additivity (name : string)
    (ledgers : list (string * list Trade)) (as_of_time : option Z) :
  let books := map book_of ledgers in
  exists c,
    Portfolio_.net_positions (mk_Portfolio name books) as_of_time = Ok c
    /\ forall asset,
         let total :=
           Qcsum (map (fun b => book_quantity b as_of_time asset) books) in
         Counter.get asset c = total
         /\ PyDict.get asset c
            = if existsb (fun b => PyDict.mem asset (book_positions b)) books
              then Some total else None.
Proof.
  intros books.
  apply (net_positions_additive (mk_Portfolio name books) as_of_time).
  simpl. apply Forall_forall. intros b Hb.
  apply in_map_iff in Hb as (ledger & <- & _).
  apply book_wf_booked, book_wf_init.
Qed.

(** ** Hedge orders *)

Lemma book_trades_trade_add (b : Book) (t : Trade) (asset : string) :
  book_trades (Book_.trade_add b t) asset
  = (book_trades b asset
     ++ if String.eqb asset (trade_asset t) then [t] else [])%list.
Proof.
  rewrite Book_trade_add_eq. unfold book_trades. simpl. rewrite get_set.
  destruct (String.eqb_spec asset (trade_asset t)) as [->|Hne].
  - destruct (PyDict.get (trade_asset t) (book_positions b)); reflexivity.
  - now rewrite app_nil_r.
Qed.

Lemma book_name_trade_add (b : Book) (t : Trade) :
  book_name (Book_.trade_add b t) = book_name b.
Proof. rewrite Book_trade_add_eq. reflexivity. Qed.

Lemma place_hedge_orders_spec (hedge_positions : dict Qc) (trade_time : Z)
    (h h' : Hedger) :
  NoDup (keys hedge_positions) ->
  Hedger_.place_hedge_orders h hedge_positions trade_time = Ok h' ->
  (close_prices h' = close_prices h
   /\ client_trades h' = client_trades h
   /\ client_book h' = client_book h
   /\ start_time h' = start_time h
   /\ end_time h' = end_time h
   /\ execution_queue h' = execution_queue h
   /\ book_name (hedge_book h') = book_name (hedge_book h))
  /\ forall asset,
       book_trades (hedge_book h') asset
       = (book_trades (hedge_book h) asset
          ++ hedge_order h hedge_positions trade_time asset)%list.
Proof.
  revert h.
  induction hedge_positions as [|[k q] hp IH]; intros h Hnd Hrun; simpl in Hrun.
  - injection Hrun as <-. split; [tauto|].
    intros asset. unfold hedge_order. simpl. now rewrite app_nil_r.
  - inversion Hnd as [|? ? Hk Hnd']; subst.
    unfold at_market_order in Hrun.
    destruct (PyDict.get k (close_prices h)) as [price|] eqn:Ep;
      [|discriminate].
    simpl in Hrun. apply (IH _ Hnd') in Hrun as [Hsame Htrades].
    simpl in Hsame. rewrite book_name_trade_add in Hsame.
    split; [exact Hsame|].
    intros asset. rewrite Htrades. simpl hedge_book.
    rewrite book_trades_trade_add. simpl trade_asset.
    rewrite <- app_assoc. f_equal.
    unfold hedge_order. simpl. rewrite book_name_trade_add.
    destruct (String.eqb_spec asset k) as [->|Hne].
    + apply get_None_iff in Hk. rewrite Hk, Ep. reflexivity.
    + reflexivity.
Qed.

Lemma NoDup_keys_get_hedge_quantities_normal (chg : dict Qc) :
  NoDup (keys (Hedger_.get_hedge_quantities_normal chg)).
Proof.
  unfold Hedger_.get_hedge_quantities_normal.
  assert (H : forall acc : dict Qc, NoDup (keys acc) ->
    NoDup (keys (fold_left
      (fun hedge_quantities kv =>
         if Qc_eq_dec (snd kv) 0 then hedge_quantities
         else PyDict.set (fst kv) (Qc_of_Z (-1) * snd kv) hedge_quantities)
      chg acc))).
  { induction chg as [|[k v] chg IH]; intros acc Hacc; simpl; [exact Hacc|].
    apply IH. destruct (Qc_eq_dec v 0); [exact Hacc|].
    now apply NoDup_keys_set. }
  apply H. constructor.
Qed.

Lemma NoDup_keys_pymap_update (m : pymap) (other : dict Qc) :
  NoDup (keys (items m)) -> NoDup (keys (items (pymap_update m other))).
Proof.
  intros Hnd. unfold pymap_update. destruct (is_counter m); simpl.
  - now apply NoDup_keys_Counter_update.
  - now apply NoDup_keys_update.
Qed.

(** ** One cycle *)

Lemma same_setup_refl (h : Hedger) : same_setup h h.
Proof. repeat split. Qed.

Lemma same_setup_trans (h1 h2 h3 : Hedger) :
  same_setup h1 h2 -> same_setup h2 h3 -> same_setup h1 h3.
Proof.
  unfold same_setup. intros (A1 & A2 & A3 & A4) (B1 & B2 & B3 & B4).
  repeat split; congruence.
Qed.

Lemma client_trades_by_time_rows (h : Hedger) (s e : Z)
    (rows : list ClientRow) :
  Hedger_.client_trades_by_time h s e = Ok rows ->
  rows = window_rows h s e.
Proof.
  unfold Hedger_.client_trades_by_time, window_rows.
  destruct (client_trades h); [discriminate|]. now intros [= <-].
Qed.

Lemma client_trades_by_time_loaded (h : Hedger) (s e : Z)
    (rows : list ClientRow) :
  client_trades h = Loaded rows ->
  Hedger_.client_trades_by_time h s e = Ok (window_rows h s e).
Proof.
  unfold Hedger_.client_trades_by_time, window_rows. now intros ->.
Qed.

Lemma book_rows_spec (rows : list ClientRow) (h : Hedger) :
  same_setup h (book_rows h rows)
  /\ hedge_book (book_rows h rows) = hedge_book h
  /\ execution_queue (book_rows h rows) = execution_queue h.
Proof.
  revert h. induction rows as [|r rows IH]; intros h.
  - split; [apply same_setup_refl | now split].
  - change (book_rows h (r :: rows))
      with (book_rows
              (Hedger_.set_client_book h
                 (Book_.trade_add (client_book h)
                    (row_trade (book_name (client_book h)) r))) rows).
    destruct (IH (Hedger_.set_client_book h
                    (Book_.trade_add (client_book h)
                       (row_trade (book_name (client_book h)) r))))
      as (Hs & Hb & Hq).
    split; [|split].
    + eapply same_setup_trans; [|exact Hs]. repeat split.
    + rewrite Hb. reflexivity.
    + rewrite Hq. reflexivity.
Qed.

Lemma book_client_trades_spec (h hb : Hedger) (s e : Z)
    (booked : list ClientRow) :
  Hedger_.book_client_trades h s e = Ok (booked, hb) ->
  booked = window_rows h s e
  /\ same_setup h hb
  /\ hedge_book hb = hedge_book h
  /\ execution_queue hb = execution_queue h.
Proof.
  unfold Hedger_.book_client_trades.
  destruct (Hedger_.client_trades_by_time h s e) as [rows|] eqn:Er;
    [|discriminate].
  simpl. intros [= <- <-].
  split; [now apply client_trades_by_time_rows|].
  apply (book_rows_spec rows h).
Qed.

Lemma get_current_strategy_ext (h1 h2 : Hedger) (t : Z) (c : dict Qc) :
  client_trades h1 = client_trades h2 ->
  Hedger_.get_current_strategy h1 t c = Hedger_.get_current_strategy h2 t c.
Proof.
  intros E. unfold Hedger_.get_current_strategy,
    Hedger_.recent_client_volume, Hedger_.client_trades_by_time.
  now rewrite E.
Qed.

Ltac solve_NoDup_keys :=
  first
    [ assumption
    | apply NoDup_keys_pymap_update; assumption
    | apply NoDup_keys_Counter_update; constructor
    | apply NoDup_keys_update;
      first [ constructor | apply NoDup_keys_get_hedge_quantities_normal ]
    | apply NoDup_keys_get_hedge_quantities_normal
    | constructor ].

Lemma get_hedge_quantities_inv (h h' : Hedger) (cur chg : dict Qc)
    (s : string) (hq : pymap) :
  Hedger_.get_hedge_quantities h cur chg s = Ok (hq, h') ->
  NoDup (keys (items hq))
  /\ same_setup h h'
  /\ client_book h' = client_book h
  /\ hedge_book h' = hedge_book h
  /\ execution_queue h'
     = tl (execution_queue h
           ++ if String.eqb s STRATEGY_STEALTH
              then Hedger_.get_hedge_quantities_stealth cur else [])%list.
Proof.
  unfold Hedger_.get_hedge_quantities.
  destruct (Hedger_.supported s) eqn:E; [|discriminate].
  apply supported_iff in E. simpl negb. cbv iota.
  assert (Hnil : NoDup (keys (items (mk_pymap true [])))) by constructor.
  assert (Hnormal : NoDup (keys (items (mk_pymap false
            (Hedger_.get_hedge_quantities_normal chg)))))
    by apply NoDup_keys_get_hedge_quantities_normal.
  destruct E as [<-|[<-|[<-|[]]]]; simpl.
  - rewrite app_nil_r.
    destruct (execution_queue h) as [|front rest] eqn:Eq;
      intros [= <- <-]; simpl;
      (split; [solve_NoDup_keys|]); repeat split; auto.
  - rewrite app_nil_r.
    destruct (execution_queue h) as [|front rest] eqn:Eq;
      intros [= <- <-]; simpl;
      (split; [solve_NoDup_keys|]); repeat split; auto.
  - destruct (execution_queue h
              ++ Hedger_.get_hedge_quantities_stealth cur)%list
      as [|front rest] eqn:Eq;
      intros [= <- <-]; simpl;
      (split; [solve_NoDup_keys|]); repeat split; auto.
Qed.

Lemma cycle_hedge_quantities_inv (t t' : Z) (h h1 : Hedger) (hq : pymap) :
  Hedger_.cycle_hedge_quantities t h = Ok (t', hq, h1) ->
  t' = (t + minutes 1)%Z
  /\ NoDup (keys (items hq))
  /\ same_setup h h1
  /\ hedge_book h1 = hedge_book h
  /\ exists strategy cur,
       Hedger_.get_current_strategy h t'
         (Hedger_.trades_net_by_notional (window_rows h t t')) = Ok strategy
       /\ execution_queue h1
          = tl (execution_queue h
                ++ if String.eqb strategy STRATEGY_STEALTH
                   then Hedger_.get_hedge_quantities_stealth cur
                   else [])%list.
Proof.
  unfold Hedger_.cycle_hedge_quantities.
  destruct (Hedger_.book_client_trades h t (t + minutes 1))
    as [[booked hb]|] eqn:Eb; [|discriminate].
  apply book_client_trades_spec in Eb as (-> & Hs & Hhb & Hq).
  simpl.
  destruct (Portfolio_.net_positions (Hedger_.portfolio hb) None)
    as [cur|] eqn:Ecur; [|discriminate].
  simpl.
  destruct (Hedger_.get_current_strategy hb (t + minutes 1) _)
    as [strategy|] eqn:Es; [|discriminate].
  simpl.
  destruct (Hedger_.get_hedge_quantities hb cur _ strategy)
    as [[hq' h1']|] eqn:Eh; [|discriminate].
  simpl. intros [= <- <- <-].
  apply get_hedge_quantities_inv in Eh as (Hnd & Hs' & _ & Hhb' & Hq').
  split; [reflexivity|]. split; [exact Hnd|].
  split; [eapply same_setup_trans; eassumption|].
  split; [congruence|].
  exists strategy, cur. split.
  - rewrite <- Es. apply get_current_strategy_ext. symmetry. apply Hs.
  - rewrite Hq', Hq. reflexivity.
Qed.

Lemma cycle_inv (t t' : Z) (h h' : Hedger) :
  Hedger_.cycle t h = Ok (t', h') ->
  exists hq h1,
    Hedger_.cycle_hedge_quantities t h = Ok (t', hq, h1)
    /\ Hedger_.place_hedge_orders h1 (items hq) t' = Ok h'.
Proof.
  unfold Hedger_.cycle.
  destruct (Hedger_.cycle_hedge_quantities t h) as [[[t1 hq] h1]|];
    [|discriminate].
  simpl.
  destruct (Hedger_.place_hedge_orders h1 (items hq) t1) as [h2|] eqn:E;
    [|discriminate].
  simpl. intros [= <- <-]. exists hq, h1. now split.
Qed.

(** What a cycle that returns has booked into the hedge book: one trade
    for every key of the hedge quantities of the cycle, with the quantity
    of the key, whether it is zero or not, and no other trade. *)
Lemma cycle_orders_for_every_key (t t' : Z) (h h' : Hedger) :
  Hedger_.cycle t h = Ok (t', h') ->
  exists hq h1,
    Hedger_.cycle_hedge_quantities t h = Ok (t', hq, h1)
    /\ forall asset,
         book_trades (hedge_book h') asset
         = (book_trades (hedge_book h) asset
            ++ match PyDict.get asset (items hq),
                     PyDict.get asset (close_prices h) with
               | Some quantity, Some price =>
                   [Trade_init (book_name (hedge_book h)) t' asset "USD"
                      quantity price]
               | _, _ => []
               end)%list.
Proof.
  intros Hc. apply cycle_inv in Hc as (hq & h1 & Hq & Hp).
  exists hq, h1. split; [exact Hq|].
  apply cycle_hedge_quantities_inv in Hq
    as (_ & Hnd & (Hprices & _) & Hbook & _).
  apply (place_hedge_orders_spec _ _ _ _ Hnd) in Hp as [_ Htrades].
  intros asset. rewrite Htrades. unfold hedge_order.
  now rewrite Hbook, Hprices.
Qed.

(** ** The loop *)

Lemma steps_run_steps (k : nat) (e t t' : Z) (h h' : Hedger) :
  steps_run k e t h = Some (t', h') -> steps e t h t' h'.
Proof.
  revert t h. induction k as [|k IH]; intros t h; simpl.
  - intros [= <- <-]. constructor.
  - destruct (Hedger_.loop_condition e t h) eqn:Ec; [|discriminate].
    destruct (Hedger_.cycle t h) as [[t1 h1]|] eqn:Ey; [|discriminate].
    intros H. eapply steps_cycle; eauto.
Qed.

Lemma steps_trans (e t1 t2 t3 : Z) (h1 h2 h3 : Hedger) :
  steps e t1 h1 t2 h2 -> steps e t2 h2 t3 h3 -> steps e t1 h1 t3 h3.
Proof.
  induction 1 as [|? ? ? ? ? ? Hc Hy _ IH]; intros H; [exact H|].
  eapply steps_cycle; eauto.
Qed.

Lemma cycle_same_setup (t t' : Z) (h h' : Hedger) :
  Hedger_.cycle t h = Ok (t', h') ->
  t' = (t + minutes 1)%Z /\ same_setup h h'.
Proof.
  intros Hc. apply cycle_inv in Hc as (hq & h1 & Hq & Hp).
  apply cycle_hedge_quantities_inv in Hq as (-> & Hnd & Hs & _).
  apply (place_hedge_orders_spec _ _ _ _ Hnd) in Hp
    as [(P1 & P2 & _ & P3 & P4 & _) _].
  split; [reflexivity|].
  eapply same_setup_trans; [exact Hs|]. repeat split; assumption.
Qed.

Lemma steps_same_setup (e t t' : Z) (h h' : Hedger) :
  steps e t h t' h' -> (t <= t')%Z /\ same_setup h h'.
Proof.
  induction 1 as [|? ? ? ? ? ? _ Hy _ [IHt IHs]].
  - split; [lia | apply same_setup_refl].
  - apply cycle_same_setup in Hy as [-> Hs].
    split; [unfold minutes in IHt; lia|].
    eapply same_setup_trans; eassumption.
Qed.

Lemma client_trades_by_time_past (e s t : Z) (h : Hedger) :
  trades_until e h -> (e <= s)%Z ->
  window_rows h s t = [].
Proof.
  unfold trades_until, window_rows. intros Hu Hs.
  induction (client_rows (client_trades h)) as [|r rows IH];
    [reflexivity|]. simpl.
  assert (Hr : (row_time r <= e)%Z) by (apply Hu; now left).
  destruct (Z.ltb_spec s (row_time r)); [lia|]. simpl.
  apply IH. intros r' Hr'. apply Hu. now right.
Qed.

(** Once the clock has reached the last client trade, a cycle books no
    trade, cannot select STEALTH, removes the front of the queue and adds
    nothing to it. *)
Lemma cycle_past_end (e t t' : Z) (h h' : Hedger) :
  trades_until e h -> (e <= t)%Z ->
  Hedger_.cycle t h = Ok (t', h') ->
  execution_queue h' = tl (execution_queue h).
Proof.
  intros Hu Ht Hc. apply cycle_inv in Hc as (hq & h1 & Hq & Hp).
  apply cycle_hedge_quantities_inv in Hq
    as (_ & Hnd & _ & _ & strategy & cur & Hs & Hqueue).
  apply (place_hedge_orders_spec _ _ _ _ Hnd) in Hp
    as [(_ & _ & _ & _ & _ & Hsame & _) _].
  rewrite Hsame, Hqueue.
  rewrite (client_trades_by_time_past e t t' h Hu Ht) in Hs.
  unfold Hedger_.get_current_strategy in Hs.
  destruct (Hedger_.recent_client_volume h time_window t') as [v|];
    [|discriminate].
  simpl in Hs.
  destruct (Qcltb v client_volume_max); injection Hs as <-;
    simpl; now rewrite app_nil_r.
Qed.

Lemma loop_condition_false (e t : Z) (h : Hedger) :
  Hedger_.loop_condition e t h = false <->
  (e < t)%Z /\ execution_queue h = [].
Proof.
  unfold Hedger_.loop_condition. rewrite orb_false_iff, Z.leb_gt.
  destruct (execution_queue h); split; intros [H1 H2];
    (split; [exact H1 | congruence]).
Qed.

Lemma run_loop_drains (n : nat) (e t : Z) (h : Hedger) :
  trades_until e h -> (e < t)%Z ->
  List.length (execution_queue h) = n ->
  exists out,
    (forall fuel, (n <= fuel)%nat -> Hedger_.run_loop fuel e t h = out)
    /\ finished e t h out.
Proof.
  revert t h. induction n as [|n IH]; intros t h Hu Ht Hlen.
  - exists (Hedger_.Done (Some t) h).
    assert (Hc : Hedger_.loop_condition e t h = false).
    { apply loop_condition_false. split; [lia|].
      now destruct (execution_queue h). }
    split.
    + intros fuel _. destruct fuel; simpl; now rewrite Hc.
    + split; [discriminate|]. intros ot h' [= <- <-].
      apply loop_condition_false in Hc as [Hc1 Hc2].
      exists t. repeat split; [lia | exact Hc2 | constructor].
  - assert (Hc : Hedger_.loop_condition e t h = true).
    { unfold Hedger_.loop_condition.
      destruct (execution_queue h); [discriminate|]. apply orb_true_r. }
    destruct (Hedger_.cycle t h) as [[t1 h1]|err] eqn:Ey.
    + pose proof (cycle_past_end e t t1 h h1 Hu ltac:(lia) Ey) as Hq.
      pose proof (cycle_same_setup _ _ _ _ Ey) as [-> Hs].
      destruct (IH (t + minutes 1)%Z h1) as (out & Hrun & Hne & Hdone).
      * intros r Hr. apply Hu. destruct Hs as (_ & <- & _). exact Hr.
      * unfold minutes. lia.
      * rewrite Hq. destruct (execution_queue h); simpl in *; congruence.
      * exists out. split; [|split; [exact Hne|]].
        -- intros fuel Hf. destruct fuel; [lia|]. simpl.
           rewrite Hc, Ey. apply Hrun. lia.
        -- intros ot h' Ho.
           destruct (Hdone ot h' Ho) as (t' & -> & H1 & H2 & H3).
           exists t'. repeat split; try assumption.
           eapply steps_cycle; eassumption.
    + exists (Hedger_.Failed err). split; [|split; [discriminate|]].
      * intros fuel Hf. destruct fuel; [lia|]. simpl. now rewrite Hc, Ey.
      * intros ot h' [=].
Qed.

(** With the clock past the last client trade the loop, when it returns,
    has run one cycle for each entry of the queue, a minute each. *)
Lemma run_loop_drains_count (n : nat) (e t : Z) (h : Hedger) :
  trades_until e h -> (e < t)%Z ->
  List.length (execution_queue h) = n ->
  forall fuel ot h',
    Hedger_.run_loop fuel e t h = Hedger_.Done ot h' ->
    ot = Some (t + minutes (Z.of_nat n))%Z
    /\ steps_run n e t h = Some ((t + minutes (Z.of_nat n))%Z, h').
Proof.
  revert t h.
  induction n as [|n IH]; intros t h Hu Ht Hlen fuel ot h' Hrun.
  - assert (Hc : Hedger_.loop_condition e t h = false).
    { apply loop_condition_false. split; [lia|].
      now destruct (execution_queue h). }
    assert (Ht0 : (t + minutes (Z.of_nat 0))%Z = t).
    { unfold minutes. simpl. lia. }
    rewrite Ht0.
    destruct fuel; simpl in Hrun; rewrite Hc in Hrun;
      injection Hrun as <- <-; now split.
  - assert (Hc : Hedger_.loop_condition e t h = true).
    { unfold Hedger_.loop_condition.
      destruct (execution_queue h); [discriminate|]. apply orb_true_r. }
    destruct fuel; simpl in Hrun; rewrite Hc in Hrun; [discriminate|].
    destruct (Hedger_.cycle t h) as [[t1 h1]|err] eqn:Ey; [|discriminate].
    pose proof (cycle_past_end e t t1 h h1 Hu ltac:(lia) Ey) as Hq.
    pose proof (cycle_same_setup _ _ _ _ Ey) as [-> Hs].
    assert (Ht1 : (t + minutes 1 + minutes (Z.of_nat n))%Z
                  = (t + minutes (Z.of_nat (S n)))%Z).
    { unfold minutes. lia. }
    destruct (IH (t + minutes 1)%Z h1) with (fuel := fuel) (ot := ot)
      (h' := h') as [Hot Hsr].
    + intros r Hr. apply Hu. destruct Hs as (_ & <- & _). exact Hr.
    + unfold minutes. lia.
    + rewrite Hq. destruct (execution_queue h); simpl in *; congruence.
    + exact Hrun.
    + rewrite Ht1 in Hot, Hsr. split; [exact Hot|].
      cbn [steps_run]. rewrite Hc, Ey. exact Hsr.
Qed.

(** The loop goes through the cycles of [steps]. *)
Lemma run_loop_steps (e t t' : Z) (h h' : Hedger) :
  steps e t h t' h' ->
  exists k, forall fuel,
    Hedger_.run_loop (k + fuel) e t h = Hedger_.run_loop fuel e t' h'.
Proof.
  induction 1 as [|t t1 t2 h h1 h2 Hc Hy _ [k IH]].
  - exists 0%nat. reflexivity.
  - exists (S k). intros fuel. simpl. rewrite Hc, Hy. apply IH.
Qed.

Lemma run_loop_terminates (m : nat) (e t : Z) (h : Hedger) :
  trades_until e h ->
  (Z.to_nat (e - t + 1) <= m)%nat ->
  exists n out,
    (forall fuel, (n <= fuel)%nat -> Hedger_.run_loop fuel e t h = out)
    /\ finished e t h out.
Proof.
  revert t h. induction m as [|m IH]; intros t h Hu Hm.
  - destruct (run_loop_drains _ e t h Hu ltac:(lia) eq_refl) as (out & H).
    now exists (List.length (execution_queue h)), out.
  - destruct (Z.ltb_spec e t) as [Hlt|Hge].
    { destruct (run_loop_drains _ e t h Hu Hlt eq_refl) as (out & H).
      now exists (List.length (execution_queue h)), out. }
    assert (Hc : Hedger_.loop_condition e t h = true).
    { unfold Hedger_.loop_condition. apply orb_true_iff. left.
      now apply Z.leb_le. }
    destruct (Hedger_.cycle t h) as [[t1 h1]|err] eqn:Ey.
    + pose proof (cycle_same_setup _ _ _ _ Ey) as [-> Hs].
      destruct (IH (t + minutes 1)%Z h1) as (n & out & Hrun & Hne & Hdone).
      * intros r Hr. apply Hu. destruct Hs as (_ & <- & _). exact Hr.
      * unfold minutes. lia.
      * exists (S n), out. split; [|split; [exact Hne|]].
        -- intros fuel Hf. destruct fuel; [lia|]. simpl.
           rewrite Hc, Ey. apply Hrun. lia.
        -- intros ot h' Ho.
           destruct (Hdone ot h' Ho) as (t' & -> & H1 & H2 & H3).
           exists t'. repeat split; try assumption.
           eapply steps_cycle; eassumption.
    + exists 1%nat, (Hedger_.Failed err). split; [|split; [discriminate|]].
      * intros fuel Hf. destruct fuel; [lia|]. simpl. now rewrite Hc, Ey.
      * intros ot h' [=].
Qed.

(** ** Loading the feed *)

Lemma In_insert_row (x r : ClientRow) (l : list ClientRow) :
  In x (Hedger_.insert_row r l) <-> x = r \/ In x l.
Proof.
  induction l as [|r' l IH]; simpl.
  - intuition congruence.
  - destruct (row_time r <? row_time r')%Z; simpl.
    + intuition congruence.
    + rewrite IH. intuition congruence.
Qed.

Lemma In_sort_rows (x : ClientRow) (l : list ClientRow) :
  In x (Hedger_.sort_rows l) <-> In x l.
Proof.
  unfold Hedger_.sort_rows.
  assert (H : forall acc,
            In x (fold_left (fun acc r => Hedger_.insert_row r acc) l acc)
            <-> In x l \/ In x acc).
  { induction l as [|r l IH]; intros acc; simpl; [tauto|].
    rewrite IH, In_insert_row. intuition congruence. }
  rewrite H. simpl. tauto.
Qed.

Lemma column_max_ge (ts : list Z) (t x : Z) :
  In x (t :: ts) -> (x <= Hedger_.column_max t ts)%Z.
Proof.
  unfold Hedger_.column_max.
  assert (H : forall a, (a <= fold_left Z.max ts a)%Z
                        /\ forall y, In y ts -> (y <= fold_left Z.max ts a)%Z).
  { induction ts as [|z ts IH]; intros a; simpl.
    - split; [lia | tauto].
    - destruct (IH (Z.max a z)) as [H1 H2]. split; [lia|].
      intros y [<-|Hy]; [lia | auto]. }
  destruct (H t) as [H1 H2]. intros [<-|Hx]; auto.
Qed.

Lemma load_client_trades_spec (h h0 : Hedger) (feed : list FeedRow) :
  Hedger_.load_client_trades h feed = Some h0 ->
  exists s e,
    start_time h0 = Some s
    /\ end_time h0 = Some e
    /\ trades_until e h0
    /\ (forall f, In f feed -> (feed_time f <= e)%Z)
    /\ execution_queue h0 = execution_queue h.
Proof.
  unfold Hedger_.load_client_trades.
  set (rows := Hedger_.sort_rows
                 (map (fun r => mk_ClientRow r (feed_quantity r * feed_price r))
                    feed)).
  destruct (map row_time rows) as [|t ts] eqn:Et; [discriminate|].
  intros [= <-]. simpl.
  exists (Hedger_.column_min t ts + minutes (-1))%Z, (Hedger_.column_max t ts).
  assert (Hrows : forall r, In r rows ->
                            (row_time r <= Hedger_.column_max t ts)%Z).
  { intros r Hr. apply column_max_ge. rewrite <- Et. now apply in_map. }
  repeat split; try reflexivity.
  - exact Hrows.
  - intros f Hf.
    apply (Hrows (mk_ClientRow f (feed_quantity f * feed_price f))).
    apply In_sort_rows.
    exact (in_map
             (fun r => mk_ClientRow r (feed_quantity r * feed_price r))
             feed f Hf).
Qed.

Lemma load_client_trades_none (h : Hedger) (feed : list FeedRow) :
  Hedger_.load_client_trades h feed = None -> feed = [].
Proof.
  unfold Hedger_.load_client_trades.
  destruct feed as [|f feed]; [reflexivity|].
  set (rows := Hedger_.sort_rows _).
  destruct (map row_time rows) as [|t ts] eqn:Et; [|discriminate].
  intros _. apply map_eq_nil in Et.
  assert (Hin : In (mk_ClientRow f (feed_quantity f * feed_price f)) rows).
  { apply In_sort_rows. now left. }
  rewrite Et in Hin. destruct Hin.
Qed.

(** C9. For every feed the run ends within some number of cycles, with
    the result of the loop or with the exception of a cycle.  When the loop
    returns, the queue is empty and the clock is past every client trade,
    every cycle before having been allowed by the loop condition.  From the
    clock reaching the last client trade on, a cycle removes the front
    entry of the queue and adds none; and from a clock past the last client
    trade the loop, when it returns, has run exactly one cycle for each
    entry the queue then held: that many cycles lead to the final state,
    and its clock is that many minutes later. *)
Theorem C9_run_hedging_terminates (prices : dict Qc) (feed : list FeedRow) :
  exists n out,
    (forall fuel, (n <= fuel)%nat -> Hedger_.run fuel prices feed = out)
    /\ out <> Hedger_.Timeout
    /\ (forall ot h',
          out = Hedger_.Done ot h' ->
          execution_queue h' = []
          /\ forall r, In r feed ->
                       exists t', ot = Some t' /\ (feed_time r < t')%Z)
    /\ (forall h0 s e,
          Hedger_.load_client_trades (Hedger_.init prices) feed = Some h0 ->
          start_time h0 = Some s ->
          end_time h0 = Some e ->
          (forall ot h',
             out = Hedger_.Done ot h' ->
             exists t', ot = Some t'
                        /\ steps e s h0 t' h'
                        /\ Hedger_.loop_condition e t' h' = false)
          /\ (forall t h t' h',
                steps e s h0 t h -> (e <= t)%Z ->
                Hedger_.cycle t h = Ok (t', h') ->
                execution_queue h' = tl (execution_queue h))
          /\ (forall t h ot h',
                steps e s h0 t h -> (e < t)%Z ->
                out = Hedger_.Done ot h' ->
                let n := List.length (execution_queue h) in
                ot = Some (t + minutes (Z.of_nat n))%Z
                /\ steps_run n e t h
                   = Some ((t + minutes (Z.of_nat n))%Z, h'))).
Proof.
  unfold Hedger_.run.
  destruct (Hedger_.load_client_trades (Hedger_.init prices) feed)
    as [h0|] eqn:El.
  - destruct (load_client_trades_spec _ _ _ El)
      as (s & e & Hs & He & Hu & Hfeed & _).
    destruct (run_loop_terminates _ e s h0 Hu (Nat.le_refl _))
      as (n & out & Hrun & Hne & Hdone).
    exists n, out. unfold Hedger_.run_hedging. rewrite Hs, He.
    split; [exact Hrun|]. split; [exact Hne|]. split.
    + intros ot h' Ho. destruct (Hdone ot h' Ho) as (t' & -> & H1 & H2 & _).
      split; [exact H2|]. intros r Hr. exists t'. split; [reflexivity|].
      specialize (Hfeed r Hr). lia.
    + intros h1 s1 e1 [= <-] Hs1 He1.
      rewrite Hs in Hs1. rewrite He in He1.
      injection Hs1 as <-. injection He1 as <-.
      assert (Hreach : forall t h, steps e s h0 t h -> trades_until e h).
      { intros t h Hsteps.
        apply steps_same_setup in Hsteps as [_ (_ & Hct & _)].
        intros r Hr. apply Hu. rewrite <- Hct. exact Hr. }
      split; [|split].
      * intros ot h' Ho.
        destruct (Hdone ot h' Ho) as (t' & -> & H1 & H2 & H3).
        exists t'. split; [reflexivity|]. split; [exact H3|].
        apply loop_condition_false. now split.
      * intros t h t' h' Hsteps Ht Hc.
        apply (cycle_past_end e t t' h h'); try assumption.
        exact (Hreach t h Hsteps).
      * intros t h ot h' Hsteps Ht Ho.
        destruct (run_loop_steps _ _ _ _ _ Hsteps) as [k Hk].
        apply (run_loop_drains_count _ e t h (Hreach t h Hsteps) Ht eq_refl
                 n ot h').
        rewrite <- Hk, <- Ho. apply Hrun. lia.
  - eexists 0%nat, _.
    split; [reflexivity|]. split; [discriminate|]. split.
    + intros ot h' [= <- <-]. split; [reflexivity|].
      apply load_client_trades_none in El. subst feed. intros r [].
    + intros h0 s e [=].
Qed.

(** * Concrete runs *)

Lemma loaded_flat_then_large :
  Hedger_.load_client_trades (Hedger_.init example_prices)
    flat_then_large_feed = Some (loaded flat_then_large_feed)
  /\ start_time (loaded flat_then_large_feed) = Some 540%Z
  /\ end_time (loaded flat_then_large_feed) = Some 660%Z.
Proof. repeat split. Qed.

Lemma loaded_two_asset :
  Hedger_.load_client_trades (Hedger_.init example_prices) two_asset_feed
  = Some (loaded two_asset_feed)
  /\ start_time (loaded two_asset_feed) = Some 540%Z
  /\ end_time (loaded two_asset_feed) = Some 600%Z.
Proof. repeat split. Qed.

Lemma C3_slow_dominates_witness :
  let h := loaded slow_feed in
  let volume :=
    Qcsum (map row_notional
             (window_rows h (600 + minutes (- time_window)) 600)) in
  Hedger_.recent_client_volume h time_window 600 = Ok volume
  /\ volume < client_volume_max
  /\ Hedger_.get_current_strategy h 600 [("BTC", Qc_of_Z 10000000000)]
     = Ok STRATEGY_SLOW.
Proof.
  intros h volume.
  assert (Hv : Hedger_.recent_client_volume h time_window 600 = Ok volume)
    by reflexivity.
  assert (Hlt : volume < client_volume_max) by (vm_compute; reflexivity).
  split; [exact Hv|]. split; [exact Hlt|].
  exact (C3_slow_dominates h 600 [("BTC", Qc_of_Z 10000000000)] volume
           Hv Hlt).
Defined.

(** The key of a net-zero asset stays in the net positions. *)
Example net_positions_keeps_flat_asset :
  exists c,
    Portfolio_.net_positions flat_portfolio None = Ok c
    /\ PyDict.get "BTC" c = Some 0
    /\ PyDict.get "ETH" c = None.
Proof.
  eexists. split; [reflexivity|]. split; [|reflexivity].
  vm_compute. f_equal; try (apply Qc_is_canon; reflexivity).
Qed.

Lemma cycle_orders_for_every_key_witness :
  let h := loaded flat_then_large_feed in
  let t' := fst (first_cycle flat_then_large_feed) in
  let h' := snd (first_cycle flat_then_large_feed) in
  Hedger_.cycle 540 h = Ok (t', h')
  /\ exists hq h1,
       Hedger_.cycle_hedge_quantities 540 h = Ok (t', hq, h1)
       /\ forall asset,
            book_trades (hedge_book h') asset
            = (book_trades (hedge_book h) asset
               ++ match PyDict.get asset (items hq),
                        PyDict.get asset (close_prices h) with
                  | Some quantity, Some price =>
                      [Trade_init (book_name (hedge_book h)) t' asset "USD"
                         quantity price]
                  | _, _ => []
                  end)%list.
Proof.
  intros h t' h'.
  assert (Hc : Hedger_.cycle 540 h = Ok (t', h')) by (vm_compute; reflexivity).
  split; [exact Hc|].
  exact (cycle_orders_for_every_key 540 t' h h' Hc).
Defined.

(** C8. The run on [flat_then_large_feed]: 100 ETH bought by the client at
    600 are hedged at once by NORMAL, which leaves the net ETH position at 0
    with its key in the snapshot; the 400 BTC bought at 660 select STEALTH
    in the second cycle, whose hedge quantities are the front of the queue,
    ETH: 0.  The order for ETH is placed all the same, with quantity 0,
    and its trade is booked into the hedge book. *)
Theorem C8_order_for_zero_hedge_quantity :
  let h0 := loaded flat_then_large_feed in
  let h := snd (first_cycle flat_then_large_feed) in
  let hedged :=
    Trade_init "HEDGE BOOK" 600 "ETH" "USD" (Qc_of_Z (-100)) (Qc_of_Z 1800) in
  let empty_order :=
    Trade_init "HEDGE BOOK" 660 "ETH" "USD" 0 (Qc_of_Z 1800) in
  Hedger_.load_client_trades (Hedger_.init example_prices)
    flat_then_large_feed = Some h0
  /\ start_time h0 = Some 540%Z
  /\ end_time h0 = Some 660%Z
  /\ Hedger_.cycle 540 h0 = Ok (600%Z, h)
  /\ Hedger_.loop_condition 660 600 h = true
  /\ exists hq h1 h',
       Hedger_.cycle_hedge_quantities 600 h = Ok (660%Z, hq, h1)
       /\ items hq = [("ETH", 0)]
       /\ book_trades (hedge_book h1) "ETH" = [hedged]
       /\ Hedger_.place_hedge_orders h1 (items hq) 660 = Ok h'
       /\ Hedger_.cycle 600 h = Ok (660%Z, h')
       /\ book_trades (hedge_book h') "ETH" = [hedged; empty_order].
Proof.
  intros h0 h hedged empty_order.
  destruct loaded_flat_then_large as (Hl & Hs & He).
  split; [exact Hl|]. split; [exact Hs|]. split; [exact He|].
  split; [vm_compute; reflexivity|]. split; [vm_compute; reflexivity|].
  assert (F :
    match Hedger_.cycle_hedge_quantities 600 h with
    | Ok (t', hq, h1) =>
        t' = 660%Z
        /\ items hq = [("ETH", 0)]
        /\ book_trades (hedge_book h1) "ETH" = [hedged]
        /\ match Hedger_.place_hedge_orders h1 (items hq) t' with
           | Ok h' =>
               Hedger_.cycle 600 h = Ok (660%Z, h')
               /\ book_trades (hedge_book h') "ETH" = [hedged; empty_order]
           | Raise _ => False
           end
    | Raise _ => False
    end).
  { vm_compute. repeat (split; [frame_closed|]). frame_closed. }
  destruct (Hedger_.cycle_hedge_quantities 600 h) as [[[t' hq] h1]|] eqn:Eq;
    [|contradiction].
  destruct F as (-> & Hhq & Hbefore & F).
  destruct (Hedger_.place_hedge_orders h1 (items hq) 660) as [h'|] eqn:Ep;
    [|contradiction].
  destruct F as (Hc & Hafter).
  exists hq, h1, h'. repeat (split; [assumption || reflexivity|]).
  exact Hafter.
Qed.

(** No run is free of orders of quantity 0: there is a cycle of a run
    whose hedge quantities are 0 for an asset and that books a trade in
    that asset into the hedge book. *)
Lemma order_placed_for_zero_quantity :
  ~ (forall prices feed h0 s e t h t' hq h1 h' asset,
       Hedger_.load_client_trades (Hedger_.init prices) feed = Some h0 ->
       start_time h0 = Some s ->
       end_time h0 = Some e ->
       steps e s h0 t h ->
       Hedger_.loop_condition e t h = true ->
       Hedger_.cycle_hedge_quantities t h = Ok (t', hq, h1) ->
       Hedger_.place_hedge_orders h1 (items hq) t' = Ok h' ->
       Counter.get asset (items hq) = 0 ->
       book_trades (hedge_book h') asset = book_trades (hedge_book h1) asset).
Proof.
  intros H.
  destruct loaded_flat_then_large as (Hl & Hs & He).
  assert (F :
    match steps_run 1 660 540 (loaded flat_then_large_feed) with
    | Some (t, h) =>
        Hedger_.loop_condition 660 t h = true
        /\ match Hedger_.cycle_hedge_quantities t h with
           | Ok (t', hq, h1) =>
               match Hedger_.place_hedge_orders h1 (items hq) t' with
               | Ok h' =>
                   this (Counter.get "ETH" (items hq)) = 0%Q
                   /\ List.length (book_trades (hedge_book h1) "ETH") = 1%nat
                   /\ List.length (book_trades (hedge_book h') "ETH") = 2%nat
               | Raise _ => False
               end
           | Raise _ => False
           end
    | None => False
    end).
  { vm_compute. repeat split. }
  destruct (steps_run 1 660 540 (loaded flat_then_large_feed))
    as [[t h]|] eqn:Es; [|contradiction].
  destruct F as [Hc F].
  destruct (Hedger_.cycle_hedge_quantities t h) as [[[t' hq] h1]|] eqn:Eq;
    [|contradiction].
  destruct (Hedger_.place_hedge_orders h1 (items hq) t') as [h'|] eqn:Ep;
    [|contradiction].
  destruct F as (Hzero & Hbefore & Hafter).
  apply steps_run_steps in Es.
  assert (Hz : Counter.get "ETH" (items hq) = 0).
  { apply Qc_is_canon. rewrite Hzero. reflexivity. }
  specialize (H _ _ _ _ _ _ _ _ _ _ _ "ETH" Hl Hs He Es Hc Eq Ep Hz).
  rewrite H in Hafter. congruence.
Qed.

(** The loop is not bound to [execution_chunks] cycles past the last
    client trade.  With a position in two assets a STEALTH decision in the
    cycle of the last client trade queues ten entries: the loop is still
    running eight minutes after the last client trade. *)
Lemma C9_trails_by_more_than_execution_chunks :
  ~ (forall prices feed h0 s e t h,
       Hedger_.load_client_trades (Hedger_.init prices) feed = Some h0 ->
       start_time h0 = Some s ->
       end_time h0 = Some e ->
       steps e s h0 t h ->
       Hedger_.loop_condition e t h = true ->
       (t <= e + minutes (Z.of_nat execution_chunks))%Z).
Proof.
  intros H.
  destruct loaded_two_asset as (Hl & Hs & He).
  assert (F :
    match steps_run 9 600 540 (loaded two_asset_feed) with
    | Some (t, h) => t = 1080%Z /\ Hedger_.loop_condition 600 t h = true
    | None => False
    end).
  { vm_compute. repeat split. }
  destruct (steps_run 9 600 540 (loaded two_asset_feed))
    as [[t h]|] eqn:Es; [|contradiction].
  destruct F as [-> Hc].
  apply steps_run_steps in Es.
  specialize (H _ _ _ _ _ _ _ Hl Hs He Es Hc).
  unfold minutes, execution_chunks in H. simpl in H. lia.
Qed.

(** * Further properties of the ledger *)

Lemma position_trades_booked (ts : list Trade) (p : Position) :
  position_trades (fold_left Position_.trade_add ts p)
  = (position_trades p ++ ts)%list
  /\ position_asset (fold_left Position_.trade_add ts p) = position_asset p.
Proof.
  revert p. induction ts as [|t ts IH]; intros p; simpl.
  - now rewrite app_nil_r.
  - destruct (IH (Position_.trade_add p t)) as [-> ->]. simpl.
    now rewrite <- app_assoc.
Qed.

Lemma position_of_facts (asset : string) (ts : list Trade) :
  position_trades (position_of asset ts) = ts
  /\ position_asset (position_of asset ts) = asset
  /\ Position_.get_quantity (position_of asset ts) None
     = Ok (Qcsum (map trade_quantity ts)).
Proof.
  unfold position_of.
  destruct (position_trades_booked ts (Position_.init asset)) as [Ht Ha].
  split; [exact Ht|]. split; [exact Ha|].
  simpl. f_equal.
  rewrite (position_invariant_booked ts _ (position_invariant_init asset)).
  now rewrite Ht.
Qed.

(** X1. A position keeps the trades booked into it, in booking order, and
    its running quantity is the sum of their quantities. *)
Theorem position_of_trades (asset : string) (ts : list Trade) :
  position_trades (position_of asset ts) = ts
  /\ position_asset (position_of asset ts) = asset
  /\ Position_.get_quantity (position_of asset ts) None
     = Ok (Qcsum (map trade_quantity ts)).
Proof. apply position_of_facts. Qed.

Lemma book_trades_booked (ts : list Trade) (b : Book) (asset : string) :
  book_trades (fold_left Book_.trade_add ts b) asset
  = (book_trades b asset ++ trades_in asset ts)%list
  /\ book_name (fold_left Book_.trade_add ts b) = book_name b.
Proof.
  revert b. induction ts as [|t ts IH]; intros b; simpl.
  - now rewrite app_nil_r.
  - destruct (IH (Book_.trade_add b t)) as [-> ->].
    rewrite book_trades_trade_add, book_name_trade_add, <- app_assoc.
    split; [|reflexivity]. f_equal. unfold trades_in. simpl.
    destruct (String.eqb asset (trade_asset t)); reflexivity.
Qed.

Lemma mem_book_positions (b : Book) (asset : string) :
  book_wf b ->
  PyDict.mem asset (book_positions b)
  = negb (match book_trades b asset with [] => true | _ :: _ => false end).
Proof.
  intros [_ Hwf]. unfold PyDict.mem, book_trades.
  destruct (PyDict.get asset (book_positions b)) as [p|] eqn:E;
    [|reflexivity].
  apply get_In in E. rewrite Forall_forall in Hwf.
  destruct (Hwf _ E) as (_ & Hne & _). simpl in Hne.
  now destruct (position_trades p).
Qed.

Lemma book_of_facts (name asset : string) (ts : list Trade) :
  book_trades (book_of (name, ts)) asset = trades_in asset ts
  /\ PyDict.mem asset (book_positions (book_of (name, ts)))
     = existsb (fun t => String.eqb asset (trade_asset t)) ts
  /\ book_name (book_of (name, ts)) = name.
Proof.
  unfold book_of. simpl.
  destruct (book_trades_booked ts (Book_.init name) asset) as [Ht Hn].
  split; [exact Ht|]. split; [|exact Hn].
  rewrite mem_book_positions by apply book_wf_booked, book_wf_init.
  rewrite Ht. unfold trades_in. simpl. clear Ht Hn.
  induction ts as [|t ts IH]; simpl; [reflexivity|].
  destruct (String.eqb asset (trade_asset t)); simpl; [reflexivity | exact IH].
Qed.

(** X2. A book files every booked trade under its asset and nowhere else:
    the trades it holds of an asset are the booked trades in that asset, in
    booking order, and it has a position in exactly the assets that were
    traded; its name does not change. *)
Theorem book_of_trades (name asset : string) (ts : list Trade) :
  book_trades (book_of (name, ts)) asset = trades_in asset ts
  /\ PyDict.mem asset (book_positions (book_of (name, ts)))
     = existsb (fun t => String.eqb asset (trade_asset t)) ts
  /\ book_name (book_of (name, ts)) = name.
Proof. apply book_of_facts. Qed.

Lemma filter_all {A : Type} (l : list A) : filter (fun _ => true) l = l.
Proof. induction l; simpl; [reflexivity | now f_equal]. Qed.

Lemma book_quantity_booked (b : Book) (as_of_time : option Z)
    (asset : string) :
  book_wf b ->
  book_quantity b as_of_time asset
  = Qcsum (map trade_quantity
             (filter (counts_as_of as_of_time) (book_trades b asset))).
Proof.
  intros [_ Hwf]. unfold book_quantity, book_trades.
  destruct (PyDict.get asset (book_positions b)) as [p|] eqn:E;
    [|reflexivity].
  apply get_In in E. rewrite Forall_forall in Hwf.
  destruct (Hwf _ E) as (_ & Hne & Hinv). simpl in Hne, Hinv.
  destruct as_of_time as [t|].
  - rewrite get_quantity_as_of by exact Hne. reflexivity.
  - simpl. rewrite filter_all. exact Hinv.
Qed.

(** X3. The positions of a book, live or as of a time: every asset with a
    booked trade is a key, also when no trade of it counts yet or its
    quantity is zero, and its value is the sum of the quantities of its
    booked trades that count; no other asset is a key. *)
Theorem book_get_positions (name : string) (ts : list Trade)
    (as_of_time : option Z) :
  exists d,
    Book_.get_positions (book_of (name, ts)) as_of_time = Ok d
    /\ forall asset,
         PyDict.get asset d
         = if existsb (fun t => String.eqb asset (trade_asset t)) ts
           then Some (Qcsum (map trade_quantity
                               (filter (counts_as_of as_of_time)
                                  (trades_in asset ts))))
           else None.
Proof.
  assert (Hwf : book_wf (book_of (name, ts)))
    by apply book_wf_booked, book_wf_init.
  destruct (get_positions_spec _ as_of_time Hwf) as (d & Hd & _ & Hget).
  exists d. split; [exact Hd|]. intros asset.
  destruct (Hget asset) as [Hv Hm].
  destruct (book_of_facts name asset ts) as (Ht & Hmem & _).
  rewrite get_of_mem_Counter_get, Hm, Hmem, Hv.
  rewrite book_quantity_booked by exact Hwf.
  now rewrite Ht.
Qed.

(** X4. As-of stability: without a trade whose time lies in [(t1, t2]] a
    position gives the same as-of result at [t1] and at [t2]. *)
Theorem as_of_stability (p : Position) (t1 t2 : Z) :
  (t1 <= t2)%Z ->
  (forall x, In x (position_trades p) -> ~ (t1 < trade_time x <= t2)%Z) ->
  Position_.get_quantity p (Some t1) = Position_.get_quantity p (Some t2).
Proof. apply get_quantity_stable. Qed.

(** X6. An as-of time before every trade of a position with trades gives
    the quantity 0, not an error. *)
Theorem as_of_before_first_trade (p : Position) (time : Z) :
  position_trades p <> [] ->
  Forall (fun x => (time < trade_time x)%Z) (position_trades p) ->
  Position_.get_quantity p (Some time) = Ok 0.
Proof.
  intros Hne Hall. rewrite get_quantity_as_of by exact Hne.
  f_equal. unfold trades_as_of. clear Hne.
  induction Hall as [|x xs Hx _ IH]; [reflexivity|]. simpl.
  destruct (Z.leb_spec (trade_time x) time); [lia | exact IH].
Qed.

(** * Further properties of the hedger *)

(** ** Net changes of a batch of client trades *)

Lemma Counter_get_singleton (a k : string) (v : Qc) :
  Counter.get a [(k, v)] = if String.eqb a k then v else 0.
Proof. unfold Counter.get. simpl. destruct (String.eqb a k); reflexivity. Qed.

Lemma net_fold (amount : ClientRow -> Qc) (rows : list ClientRow)
    (acc : dict Qc) (a : string) :
  NoDup (keys acc) ->
  let net :=
    fold_left
      (fun c row =>
         Counter.update c [(feed_asset (row_feed row), amount row)])
      rows acc in
  NoDup (keys net)
  /\ Counter.get a net = Counter.get a acc + Qcsum (map amount (rows_in a rows))
  /\ PyDict.mem a net
     = PyDict.mem a acc
       || existsb (fun r => String.eqb a (feed_asset (row_feed r))) rows.
Proof.
  revert acc. induction rows as [|r rows IH]; intros acc Hnd; simpl.
  - split; [exact Hnd|]. rewrite Qcsum_nil, orb_false_r.
    split; [ring | reflexivity].
  - assert (Hone : NoDup (keys [(feed_asset (row_feed r), amount r)])).
    { repeat constructor. simpl. tauto. }
    destruct (IH _ (NoDup_keys_Counter_update
                      [(feed_asset (row_feed r), amount r)] acc Hnd))
      as (H1 & H2 & H3).
    split; [exact H1|]. split.
    + rewrite H2, Counter_get_update, Counter_get_singleton by exact Hone.
      unfold rows_in. simpl.
      destruct (String.eqb a (feed_asset (row_feed r))); simpl.
      * rewrite Qcsum_cons. ring.
      * ring.
    + rewrite H3, mem_Counter_update by exact Hone.
      unfold PyDict.mem at 2. simpl.
      destruct (String.eqb a (feed_asset (row_feed r)));
        now rewrite <- orb_assoc.
Qed.

Lemma net_of_rows (amount : ClientRow -> Qc) (rows : list ClientRow)
    (a : string) :
  PyDict.get a
    (fold_left
       (fun c row =>
          Counter.update c [(feed_asset (row_feed row), amount row)])
       rows [])
  = if existsb (fun r => String.eqb a (feed_asset (row_feed r))) rows
    then Some (Qcsum (map amount (rows_in a rows)))
    else None.
Proof.
  destruct (net_fold amount rows [] a (NoDup_nil _)) as (_ & Hv & Hm).
  rewrite get_of_mem_Counter_get, Hm, Hv. simpl.
  destruct (existsb _ rows); [|reflexivity].
  f_equal. unfold Counter.get. simpl. ring.
Qed.

(** X7. The net position change of a batch of client trades maps every
    asset of the batch to the sum of the quantities of its trades, also
    when that sum is zero, and has no other key. *)
Theorem trades_net_by_position_sums (rows : list ClientRow) (asset : string) :
  PyDict.get asset (Hedger_.trades_net_by_position rows)
  = if existsb (fun r => String.eqb asset (feed_asset (row_feed r))) rows
    then Some (Qcsum (map (fun r => feed_quantity (row_feed r))
                        (rows_in asset rows)))
    else None.
Proof.
  apply (net_of_rows (fun r => feed_quantity (row_feed r))).
Qed.

(** X8. The net notional change of a batch of client trades maps every
    asset of the batch to the sum of quantity times price of its trades,
    signed, and has no other key. *)
Theorem trades_net_by_notional_sums (rows : list ClientRow) (asset : string) :
  PyDict.get asset (Hedger_.trades_net_by_notional rows)
  = if existsb (fun r => String.eqb asset (feed_asset (row_feed r))) rows
    then Some (Qcsum (map (fun r => feed_quantity (row_feed r)
                                    * feed_price (row_feed r))
                        (rows_in asset rows)))
    else None.
Proof.
  apply (net_of_rows (fun r => feed_quantity (row_feed r)
                               * feed_price (row_feed r))).
Qed.

(** ** NORMAL quantities *)

Lemma get_normal_fold (a : string) (chg acc : dict Qc) :
  NoDup (keys chg) ->
  PyDict.get a
    (fold_left
       (fun hedge_quantities kv =>
          if Qc_eq_dec (snd kv) 0 then hedge_quantities
          else PyDict.set (fst kv) (Qc_of_Z (-1) * snd kv) hedge_quantities)
       chg acc)
  = match PyDict.get a chg with
    | Some q => if Qc_eq_dec q 0 then PyDict.get a acc else Some (- q)
    | None => PyDict.get a acc
    end.
Proof.
  revert acc. induction chg as [|[k v] chg IH]; intros acc Hnd; simpl;
    [reflexivity|].
  inversion Hnd as [|? ? Hk Hnd']; subst.
  rewrite IH by exact Hnd'.
  apply get_None_iff in Hk.
  destruct (String.eqb_spec a k) as [->|Hne].
  - rewrite Hk. destruct (Qc_eq_dec v 0); [reflexivity|].
    rewrite get_set, String.eqb_refl. apply f_equal.
    rewrite Qc_of_Z_minus_one. ring.
  - destruct (Qc_eq_dec v 0); [reflexivity|].
    rewrite get_set. apply String.eqb_neq in Hne. rewrite Hne.
    reflexivity.
Qed.

(** X9. The NORMAL quantities negate the position change asset by asset
    and leave out every asset whose change is zero: a value of the result
    is never 0. *)
Theorem get_hedge_quantities_normal_negates (chg : dict Qc) (asset : string) :
  NoDup (keys chg) ->
  PyDict.get asset (Hedger_.get_hedge_quantities_normal chg)
  = match PyDict.get asset chg with
    | Some q => if Qc_eq_dec q 0 then None else Some (- q)
    | None => None
    end.
Proof.
  intros Hnd. unfold Hedger_.get_hedge_quantities_normal.
  now rewrite get_normal_fold.
Qed.

(** ** The sampling window *)

Lemma client_trades_by_time_empty_window (h : Hedger) (t : Z) :
  window_rows h t t = [].
Proof.
  unfold window_rows.
  induction (client_rows (client_trades h)) as [|r rows IH];
    [reflexivity|]. simpl.
  destruct (Z.ltb_spec t (row_time r)), (Z.leb_spec (row_time r) t);
    simpl; try exact IH; lia.
Qed.

(** X10. The recent client volume raises its own exception exactly for a
    negative window, before it looks at the client trades.  Exactly for a
    window that is not negative, a hedger that has loaded no client trades
    raises the [KeyError] of the column lookup, and a hedger that has
    loaded them returns a volume; there the window of 0 minutes is accepted
    and, being empty, has volume 0. *)
Theorem recent_client_volume_window (h : Hedger) (sampling_window : Z)
    (as_of_time : Z) :
  (Hedger_.recent_client_volume h sampling_window as_of_time
   = Raise (Exception "sampling_window must be positive number of minutes")
   <-> (sampling_window < 0)%Z)
  /\ match client_trades h with
     | NoColumns =>
         Hedger_.recent_client_volume h sampling_window as_of_time
         = Raise (KeyError "trade_time")
         <-> (0 <= sampling_window)%Z
     | Loaded _ =>
         ((exists volume,
             Hedger_.recent_client_volume h sampling_window as_of_time
             = Ok volume)
          <-> (0 <= sampling_window)%Z)
         /\ Hedger_.recent_client_volume h 0 as_of_time = Ok 0
     end.
Proof.
  unfold Hedger_.recent_client_volume.
  split.
  - destruct (Z.ltb_spec sampling_window 0) as [Hneg|Hpos].
    + split; [intros _; exact Hneg | reflexivity].
    + split; [|lia]. unfold Hedger_.client_trades_by_time.
      destruct (client_trades h); discriminate.
  - destruct (client_trades h) as [|rows] eqn:Ec.
    + unfold Hedger_.client_trades_by_time. rewrite Ec. simpl.
      destruct (Z.ltb_spec sampling_window 0); split;
        try discriminate; try lia; reflexivity.
    + split.
      * destruct (Z.ltb_spec sampling_window 0); split.
        -- intros [v Hv]. discriminate.
        -- lia.
        -- intros _. assumption.
        -- intros _.
           rewrite (client_trades_by_time_loaded h _ _ rows Ec).
           eexists. reflexivity.
      * simpl. unfold minutes. rewrite Z.add_0_r.
        rewrite (client_trades_by_time_loaded h _ _ rows Ec). simpl.
        now rewrite client_trades_by_time_empty_window.
Qed.

(** ** Placing orders *)

Lemma place_hedge_orders_prices (hp : dict Qc) (t : Z) (h : Hedger) :
  match Hedger_.place_hedge_orders h hp t with
  | Ok _ => forall a, In a (keys hp) -> PyDict.mem a (close_prices h) = true
  | Raise e =>
      exists a, e = KeyError a /\ In a (keys hp)
                /\ PyDict.mem a (close_prices h) = false
  end.
Proof.
  revert h. induction hp as [|[k q] hp IH]; intros h; simpl.
  - intros a [].
  - unfold at_market_order.
    destruct (PyDict.get k (close_prices h)) as [price|] eqn:Ep; simpl.
    + specialize (IH (Hedger_.set_hedge_book h
                        (Book_.trade_add (hedge_book h)
                           (Trade_init (book_name (hedge_book h)) t k "USD"
                              q price)))).
      destruct (Hedger_.place_hedge_orders _ hp t) as [h'|e].
      * intros a [<-|Ha]; [|exact (IH a Ha)].
        unfold PyDict.mem. now rewrite Ep.
      * destruct IH as (a & -> & Ha & Hm). exists a. auto.
    + exists k. split; [reflexivity|]. split; [now left|].
      unfold PyDict.mem. now rewrite Ep.
Qed.

(** X11. Placing the hedge orders succeeds exactly when the exchange has a
    close price for every asset of the hedge quantities; otherwise it
    raises the [KeyError] of an asset of the hedge quantities that has no
    price. *)
Theorem place_hedge_orders_needs_prices (h : Hedger) (hp : dict Qc) (t : Z) :
  ((exists h', Hedger_.place_hedge_orders h hp t = Ok h')
   <-> forall a, In a (keys hp) -> PyDict.mem a (close_prices h) = true)
  /\ forall e,
       Hedger_.place_hedge_orders h hp t = Raise e ->
       exists a, e = KeyError a /\ In a (keys hp)
                 /\ PyDict.mem a (close_prices h) = false.
Proof.
  pose proof (place_hedge_orders_prices hp t h) as H.
  destruct (Hedger_.place_hedge_orders h hp t) as [h'|e].
  - split.
    + split; [intros _; exact H | intros _; now exists h'].
    + intros e [=].
  - destruct H as (a & -> & Ha & Hm). split.
    + split; [intros [h' [=]]|].
      intros Hall. rewrite (Hall a Ha) in Hm. discriminate.
    + intros e [= <-]. exists a. auto.
Qed.

(** ** STEALTH *)

(** X12. The queue entries of a STEALTH decision come round-robin:
    [execution_chunks] rounds, each with one single-asset entry per asset
    of the snapshot, in the order of the snapshot; an empty snapshot gives
    no entry. *)
Theorem stealth_round_robin (cur : dict Qc) :
  NoDup (keys cur) ->
  Hedger_.get_hedge_quantities_stealth cur
  = List.concat (repeat (map stealth_hedge cur) execution_chunks)
  /\ List.length (Hedger_.get_hedge_quantities_stealth cur)
     = (execution_chunks * List.length cur)%nat.
Proof.
  intros Hnd. split.
  - now apply get_hedge_quantities_stealth_rounds.
  - now apply length_get_hedge_quantities_stealth.
Qed.

(** X13. STEALTH emits exactly [execution_chunks] entries that name an
    asset of the snapshot, whatever its position, and no entry that names
    another asset. *)
Theorem stealth_chunk_count_by_asset (cur : dict Qc) (asset : string) :
  NoDup (keys cur) ->
  chunk_count asset (Hedger_.get_hedge_quantities_stealth cur)
  = if PyDict.mem asset cur then execution_chunks else 0%nat.
Proof.
  intros Hnd.
  rewrite get_hedge_quantities_stealth_rounds by exact Hnd.
  rewrite chunk_count_rounds. unfold PyDict.mem.
  destruct (PyDict.get asset cur) as [q|] eqn:Hget.
  - destruct (round_with_asset asset q cur Hnd Hget) as [_ ->].
    apply Nat.mul_1_r.
  - destruct (round_without_asset asset cur) as [_ ->].
    + now apply get_None_iff.
    + apply Nat.mul_0_r.
Qed.

(** ** The execution queue *)

(** X14. The hedge quantity calculator leaves the books, the prices and
    the client trades alone; the queue it leaves is the queue it found,
    with the STEALTH entries appended when the strategy is STEALTH, less
    its first entry: first in, first out, one entry per call. *)
Theorem get_hedge_quantities_queue (h h' : Hedger) (cur chg : dict Qc)
    (strategy : string) (hq : pymap) :
  Hedger_.get_hedge_quantities h cur chg strategy = Ok (hq, h') ->
  same_setup h h'
  /\ client_book h' = client_book h
  /\ hedge_book h' = hedge_book h
  /\ execution_queue h'
     = tl (execution_queue h
           ++ if String.eqb strategy STRATEGY_STEALTH
              then Hedger_.get_hedge_quantities_stealth cur else [])%list.
Proof.
  intros H. apply get_hedge_quantities_inv in H. tauto.
Qed.

(** X15. With SLOW or STEALTH and a non-empty queue the result is a
    counter that holds the front entry of the queue and nothing else. *)
Theorem get_hedge_quantities_front (h : Hedger) (cur chg : dict Qc)
    (strategy : string) (front : dict Qc) (rest : list (dict Qc)) :
  strategy = STRATEGY_SLOW \/ strategy = STRATEGY_STEALTH ->
  execution_queue h = front :: rest ->
  NoDup (keys front) ->
  exists hq h',
    Hedger_.get_hedge_quantities h cur chg strategy = Ok (hq, h')
    /\ is_counter hq = true
    /\ forall asset, PyDict.get asset (items hq) = PyDict.get asset front.
Proof.
  intros Hs Hq Hnd.
  assert (Hget : forall asset,
            PyDict.get asset (PyDict.update [] front)
            = PyDict.get asset front).
  { intros asset. rewrite get_update by exact Hnd.
    now destruct (PyDict.get asset front). }
  destruct Hs as [-> | ->].
  - rewrite (get_hedge_quantities_slow_pops h cur chg front rest Hq).
    eexists. eexists. split; [reflexivity|]. split; [reflexivity|exact Hget].
  - rewrite (get_hedge_quantities_stealth_pops h cur chg front rest Hq).
    eexists. eexists. split; [reflexivity|]. split; [reflexivity|exact Hget].
Qed.

(** ** Loading, again *)

Lemma insert_row_sorted (r : ClientRow) (l : list ClientRow) :
  StronglySorted row_time_le l ->
  StronglySorted row_time_le (Hedger_.insert_row r l).
Proof.
  induction 1 as [|r' l Hl IH Hr']; simpl.
  - repeat constructor.
  - destruct (Z.ltb_spec (row_time r) (row_time r')) as [Hlt|Hge].
    + constructor; [now constructor|].
      constructor; [unfold row_time_le; lia|].
      eapply Forall_impl; [|exact Hr'].
      unfold row_time_le. intros x Hx. lia.
    + constructor; [exact IH|].
      apply Forall_forall. intros x Hx.
      apply In_insert_row in Hx as [->|Hx]; [exact Hge|].
      rewrite Forall_forall in Hr'. now apply Hr'.
Qed.

Lemma insert_row_permutation (r : ClientRow) (l : list ClientRow) :
  Permutation (Hedger_.insert_row r l) (r :: l).
Proof.
  induction l as [|r' l IH]; simpl; [reflexivity|].
  destruct (row_time r <? row_time r')%Z; [reflexivity|].
  rewrite IH. apply perm_swap.
Qed.

Lemma sort_rows_sorted_permutation (l : list ClientRow) :
  StronglySorted row_time_le (Hedger_.sort_rows l)
  /\ Permutation (Hedger_.sort_rows l) l.
Proof.
  unfold Hedger_.sort_rows.
  assert (H : forall acc,
            StronglySorted row_time_le acc ->
            StronglySorted row_time_le
              (fold_left (fun acc r => Hedger_.insert_row r acc) l acc)
            /\ Permutation
                 (fold_left (fun acc r => Hedger_.insert_row r acc) l acc)
                 (l ++ acc)).
  { induction l as [|r l IH]; intros acc Hacc; simpl.
    - now split.
    - destruct (IH _ (insert_row_sorted r acc Hacc)) as [Hs Hp].
      split; [exact Hs|]. rewrite Hp, insert_row_permutation.
      symmetry. apply Permutation_middle. }
  destruct (H [] (SSorted_nil _)) as [Hs Hp].
  split; [exact Hs|]. now rewrite app_nil_r in Hp.
Qed.

Lemma column_min_le (ts : list Z) (t x : Z) :
  In x (t :: ts) -> (Hedger_.column_min t ts <= x)%Z.
Proof.
  unfold Hedger_.column_min.
  assert (H : forall a, (fold_left Z.min ts a <= a)%Z
                        /\ forall y, In y ts -> (fold_left Z.min ts a <= y)%Z).
  { induction ts as [|z ts IH]; intros a; simpl.
    - split; [lia | tauto].
    - destruct (IH (Z.min a z)) as [H1 H2]. split; [lia|].
      intros y [<-|Hy]; [lia | auto]. }
  destruct (H t) as [H1 H2]. intros [<-|Hx]; auto.
Qed.

Lemma column_min_max_in (ts : list Z) (t : Z) :
  In (Hedger_.column_min t ts) (t :: ts)
  /\ In (Hedger_.column_max t ts) (t :: ts).
Proof.
  unfold Hedger_.column_min, Hedger_.column_max.
  revert t. induction ts as [|z ts IH]; intros t; simpl.
  - split; now left.
  - destruct (IH (Z.min t z)) as [Hmin _], (IH (Z.max t z)) as [_ Hmax].
    simpl in Hmin, Hmax. split.
    + destruct Hmin as [Hmin|Hmin]; [|tauto].
      rewrite <- Hmin. destruct (Z.min_spec t z) as [[_ E]|[_ E]];
        rewrite E; tauto.
    + destruct Hmax as [Hmax|Hmax]; [|tauto].
      rewrite <- Hmax. destruct (Z.max_spec t z) as [[_ E]|[_ E]];
        rewrite E; tauto.
Qed.

Lemma load_client_trades_facts (h h0 : Hedger) (feed : list FeedRow) :
  Hedger_.load_client_trades h feed = Some h0 ->
  client_trades h0 = Loaded (feed_rows feed)
  /\ Permutation (map row_feed (client_rows (client_trades h0))) feed
  /\ StronglySorted row_time_le (client_rows (client_trades h0))
  /\ Forall (fun r => row_notional r
                      = feed_quantity (row_feed r) * feed_price (row_feed r))
       (client_rows (client_trades h0))
  /\ (exists first last,
        In first feed /\ In last feed
        /\ start_time h0 = Some (feed_time first - 60)%Z
        /\ end_time h0 = Some (feed_time last)
        /\ forall r, In r feed ->
                     (feed_time first <= feed_time r <= feed_time last)%Z)
  /\ client_book h0 = client_book h
  /\ hedge_book h0 = hedge_book h
  /\ close_prices h0 = close_prices h
  /\ execution_queue h0 = execution_queue h.
Proof.
  unfold Hedger_.load_client_trades. fold (feed_rows feed).
  destruct (map row_time (feed_rows feed)) as [|t ts] eqn:Et; [discriminate|].
  intros [= <-]. simpl.
  destruct (sort_rows_sorted_permutation
              (map (fun r => mk_ClientRow r (feed_quantity r * feed_price r))
                 feed)) as [Hs Hp].
  fold (feed_rows feed) in Hs, Hp.
  assert (Hfeed : Permutation (map row_feed (feed_rows feed)) feed).
  { rewrite Hp, map_map. simpl. now rewrite map_id. }
  assert (Htimes : forall x, In x (t :: ts) <->
                             exists r, In r feed /\ feed_time r = x).
  { intros x. rewrite <- Et. rewrite in_map_iff. split.
    - intros (row & <- & Hrow). exists (row_feed row). split; [|reflexivity].
      apply (Permutation_in _ Hfeed). now apply in_map.
    - intros (r & Hr & <-).
      apply (Permutation_in _ (Permutation_sym Hfeed)) in Hr.
      apply in_map_iff in Hr as (row & <- & Hrow). now exists row. }
  split; [reflexivity|]. split; [exact Hfeed|]. split; [exact Hs|].
  split.
  { apply Forall_forall. intros row Hrow.
    apply (Permutation_in _ Hp) in Hrow.
    apply in_map_iff in Hrow as (r & <- & _). reflexivity. }
  split; [|repeat split].
  destruct (column_min_max_in ts t) as [Hmin Hmax].
  apply Htimes in Hmin as (first & Hfirst & Efirst).
  apply Htimes in Hmax as (last & Hlast & Elast).
  exists first, last. split; [exact Hfirst|]. split; [exact Hlast|].
  rewrite Efirst, Elast.
  split; [unfold minutes; apply f_equal; lia|].
  split; [reflexivity|].
  intros r Hr.
  assert (Hin : In (feed_time r) (t :: ts)) by (apply Htimes; now exists r).
  split; [now apply column_min_le | now apply column_max_ge].
Qed.

(** X16. Loading keeps every record of the feed once, ordered by time,
    with its notional the product of quantity and price; the start time is
    one minute before the earliest record and the end time is the time of
    the latest one; books, prices and queue stay as they were. *)
Theorem load_client_trades_sorts (h h0 : Hedger) (feed : list FeedRow) :
  Hedger_.load_client_trades h feed = Some h0 ->
  client_trades h0 = Loaded (feed_rows feed)
  /\ Permutation (map row_feed (client_rows (client_trades h0))) feed
  /\ StronglySorted row_time_le (client_rows (client_trades h0))
  /\ Forall (fun r => row_notional r
                      = feed_quantity (row_feed r) * feed_price (row_feed r))
       (client_rows (client_trades h0))
  /\ (exists first last,
        In first feed /\ In last feed
        /\ start_time h0 = Some (feed_time first - 60)%Z
        /\ end_time h0 = Some (feed_time last)
        /\ forall r, In r feed ->
                     (feed_time first <= feed_time r <= feed_time last)%Z)
  /\ client_book h0 = client_book h
  /\ hedge_book h0 = hedge_book h
  /\ close_prices h0 = close_prices h
  /\ execution_queue h0 = execution_queue h.
Proof. apply load_client_trades_facts. Qed.

(** ** Booking the client trades *)

Lemma book_rows_book (rows : list ClientRow) (h : Hedger) :
  client_book (book_rows h rows)
  = fold_left Book_.trade_add
      (map (row_trade (book_name (client_book h))) rows) (client_book h).
Proof.
  revert h. induction rows as [|r rows IH]; intros h; [reflexivity|].
  change (book_rows h (r :: rows))
    with (book_rows
            (Hedger_.set_client_book h
               (Book_.trade_add (client_book h)
                  (row_trade (book_name (client_book h)) r))) rows).
  rewrite IH. simpl. rewrite book_name_trade_add. reflexivity.
Qed.

Lemma book_client_trades_book (h hb : Hedger) (s e : Z)
    (booked : list ClientRow) :
  Hedger_.book_client_trades h s e = Ok (booked, hb) ->
  client_book hb
  = fold_left Book_.trade_add
      (map (row_trade (book_name (client_book h))) (window_rows h s e))
      (client_book h).
Proof.
  unfold Hedger_.book_client_trades.
  destruct (Hedger_.client_trades_by_time h s e) as [rows|] eqn:Er;
    [|discriminate].
  simpl. intros [= <- <-].
  apply client_trades_by_time_rows in Er. subst rows.
  apply (book_rows_book (window_rows h s e) h).
Qed.

Lemma cycle_client_book (t t' : Z) (h h' : Hedger) :
  Hedger_.cycle t h = Ok (t', h') ->
  client_book h'
  = fold_left Book_.trade_add
      (map (row_trade (book_name (client_book h))) (window_rows h t t'))
      (client_book h).
Proof.
  intros Hc. pose proof (cycle_same_setup _ _ _ _ Hc) as [-> _].
  unfold Hedger_.cycle, Hedger_.cycle_hedge_quantities in Hc.
  destruct (Hedger_.book_client_trades h t (t + minutes 1))
    as [[booked hb]|] eqn:Eb; [|discriminate].
  rewrite <- (book_client_trades_book _ _ _ _ _ Eb).
  simpl in Hc.
  destruct (Portfolio_.net_positions (Hedger_.portfolio hb) None)
    as [cur|]; [|discriminate].
  simpl in Hc.
  destruct (Hedger_.get_current_strategy hb (t + minutes 1) _)
    as [strategy|]; [|discriminate].
  simpl in Hc.
  destruct (Hedger_.get_hedge_quantities hb cur _ strategy)
    as [[hq h1]|] eqn:Eh; [|discriminate].
  simpl in Hc.
  destruct (Hedger_.place_hedge_orders h1 (items hq) (t + minutes 1))
    as [h2|] eqn:Ep; [|discriminate].
  simpl in Hc. injection Hc as <-.
  apply get_hedge_quantities_inv in Eh as (Hnd & _ & Hcb & _).
  apply (place_hedge_orders_spec _ _ _ _ Hnd) in Ep
    as [(_ & _ & Hcb' & _) _].
  congruence.
Qed.

Lemma filter_window_above (s t : Z) (x : ClientRow) (l : list ClientRow) :
  (t < row_time x)%Z ->
  Forall (row_time_le x) l ->
  filter (fun r => (s <? row_time r)%Z && (row_time r <=? t)%Z) l = [].
Proof.
  intros Hx Hall. induction Hall as [|y l Hy _ IH]; [reflexivity|]. simpl.
  unfold row_time_le in Hy.
  destruct (Z.leb_spec (row_time y) t); [lia|].
  now rewrite andb_false_r.
Qed.

(** On rows in the order of their times, two adjoining windows make up the
    window that spans them. *)
Lemma filter_window_split (s t t' : Z) (l : list ClientRow) :
  StronglySorted row_time_le l ->
  (s <= t <= t')%Z ->
  filter (fun r => (s <? row_time r)%Z && (row_time r <=? t')%Z) l
  = (filter (fun r => (s <? row_time r)%Z && (row_time r <=? t)%Z) l
     ++ filter (fun r => (t <? row_time r)%Z && (row_time r <=? t')%Z) l)%list.
Proof.
  intros Hs Ht. induction Hs as [|x l Hl IH Hx]; [reflexivity|]. simpl.
  destruct (Z.ltb_spec s (row_time x)) as [H1|H1],
           (Z.leb_spec (row_time x) t') as [H2|H2],
           (Z.leb_spec (row_time x) t) as [H3|H3],
           (Z.ltb_spec t (row_time x)) as [H4|H4];
    simpl; try lia; try exact IH.
  - rewrite IH. reflexivity.
  - rewrite (filter_window_above s t x l H4 Hx). simpl.
    rewrite IH, (filter_window_above s t x l H4 Hx). reflexivity.
Qed.

Lemma trades_in_app (asset : string) (l1 l2 : list Trade) :
  trades_in asset (l1 ++ l2)
  = (trades_in asset l1 ++ trades_in asset l2)%list.
Proof. apply filter_app. Qed.

(** Along the loop the client book grows by the client trades of the time
    that has passed. *)
Lemma steps_client_book (e t t' : Z) (h h' : Hedger) :
  steps e t h t' h' ->
  StronglySorted row_time_le (client_rows (client_trades h)) ->
  forall asset,
    book_trades (client_book h') asset
    = (book_trades (client_book h) asset
       ++ trades_in asset
            (map (row_trade (book_name (client_book h)))
               (window_rows h t t')))%list
    /\ book_name (client_book h') = book_name (client_book h).
Proof.
  induction 1 as [t h|t t1 t2 h h1 h2 _ Hy Hsteps IH]; intros Hs asset.
  - rewrite client_trades_by_time_empty_window. simpl.
    now rewrite app_nil_r.
  - pose proof (cycle_client_book _ _ _ _ Hy) as Hcb.
    pose proof (cycle_same_setup _ _ _ _ Hy) as [Ht1 (_ & Hct & _)].
    pose proof (steps_same_setup _ _ _ _ _ Hsteps) as [Ht2 _].
    rewrite Hct in IH. destruct (IH Hs asset) as [IHt IHn].
    destruct (book_trades_booked
                (map (row_trade (book_name (client_book h)))
                   (window_rows h t t1))
                (client_book h) asset) as [Hb Hn].
    rewrite <- Hcb in Hb, Hn.
    rewrite IHt, IHn, Hb, Hn. split; [|reflexivity].
    rewrite <- app_assoc. f_equal.
    rewrite <- trades_in_app, <- map_app. do 2 f_equal.
    unfold window_rows. rewrite Hct.
    symmetry. apply filter_window_split; [exact Hs|].
    unfold minutes in Ht1. lia.
Qed.

Lemma run_loop_done (fuel : nat) (e t : Z) (h h' : Hedger)
    (ot : option Z) :
  Hedger_.run_loop fuel e t h = Hedger_.Done ot h' ->
  exists t', ot = Some t'
             /\ steps e t h t' h'
             /\ (e < t')%Z
             /\ execution_queue h' = [].
Proof.
  revert t h. induction fuel as [|fuel IH]; intros t h; simpl.
  - destruct (Hedger_.loop_condition e t h) eqn:Ec; [discriminate|].
    intros [= <- <-]. apply loop_condition_false in Ec as [H1 H2].
    exists t. repeat split; try assumption. constructor.
  - destruct (Hedger_.loop_condition e t h) eqn:Ec.
    + destruct (Hedger_.cycle t h) as [[t1 h1]|] eqn:Ey; [|discriminate].
      intros Hrun. destruct (IH _ _ Hrun) as (t' & -> & Hsteps & H1 & H2).
      exists t'. repeat split; try assumption.
      eapply steps_cycle; eassumption.
    + intros [= <- <-]. apply loop_condition_false in Ec as [H1 H2].
      exists t. repeat split; try assumption. constructor.
Qed.

Lemma filter_window_all (s t : Z) (l : list ClientRow) :
  (forall r, In r l -> (s < row_time r <= t)%Z) ->
  filter (fun r => (s <? row_time r)%Z && (row_time r <=? t)%Z) l = l.
Proof.
  induction l as [|r l IH]; intros Hall; [reflexivity|]. simpl.
  assert (Hr := Hall r (or_introl eq_refl)).
  destruct (Z.ltb_spec s (row_time r)); [|lia].
  destruct (Z.leb_spec (row_time r) t); [|lia]. simpl.
  f_equal. apply IH. intros r' Hr'. apply Hall. now right.
Qed.

(** X17. When a run returns, the client book holds every record of the
    feed exactly once: for every asset, the trades of the client book are
    the trades made of the records of that asset, in the order of their
    times. *)
Theorem run_books_every_client_trade (fuel : nat) (prices : dict Qc)
    (feed : list FeedRow) (ot : option Z) (h' : Hedger) (asset : string) :
  Hedger_.run fuel prices feed = Hedger_.Done ot h' ->
  book_trades (client_book h') asset
  = trades_in asset (map (row_trade "CLIENT BOOK") (feed_rows feed)).
Proof.
  unfold Hedger_.run.
  destruct (Hedger_.load_client_trades (Hedger_.init prices) feed)
    as [h0|] eqn:El.
  - destruct (load_client_trades_spec _ _ _ El)
      as (s & e & Hs & He & Hu & _ & _).
    destruct (load_client_trades_facts _ _ _ El)
      as (Hrows & _ & Hsorted & _ & (first & last & Hf & _ & Hs' & _ & Hb)
          & Hcb & _).
    unfold Hedger_.run_hedging. rewrite Hs, He. intros Hrun.
    apply run_loop_done in Hrun as (t' & _ & Hsteps & Hpast & _).
    destruct (steps_client_book _ _ _ _ _ Hsteps Hsorted asset) as [Ht _].
    rewrite Ht, Hcb. simpl. do 2 f_equal.
    assert (Erows : feed_rows feed = client_rows (client_trades h0))
      by now rewrite Hrows.
    rewrite Erows. unfold window_rows.
    rewrite Hs in Hs'. injection Hs' as ->.
    assert (Hall : forall r, In r (client_rows (client_trades h0)) ->
                             (feed_time first - 60 < row_time r <= e)%Z).
    { intros r Hr. split; [|now apply Hu].
      assert (Hin : In (row_feed r) feed).
      { rewrite <- Erows in Hr. unfold feed_rows in Hr.
        apply (proj1 (In_sort_rows _ _)) in Hr.
        apply in_map_iff in Hr as (f & <- & Hf'). exact Hf'. }
      specialize (Hb _ Hin). unfold row_time. lia. }
    apply filter_window_all. intros r Hr. specialize (Hall r Hr). lia.
  - intros [= <- <-]. apply load_client_trades_none in El. now subst feed.
Qed.

(** ** A run that stays SLOW *)

Lemma get_positions_items_live (ps : dict Position) (acc : dict Qc) :
  exists d, Book_.get_positions_items ps None acc = Ok d.
Proof.
  revert acc. induction ps as [|[k p] ps IH]; intros acc; simpl.
  - now exists acc.
  - apply IH.
Qed.

Lemma net_positions_books_live (books : list Book) (acc : dict Qc) :
  exists c, Portfolio_.net_positions_books books None acc = Ok c.
Proof.
  revert acc. induction books as [|b books IH]; intros acc; simpl.
  - now exists acc.
  - unfold Book_.get_positions.
    destruct (get_positions_items_live (book_positions b) []) as [d ->].
    simpl. apply IH.
Qed.

Lemma always_slow_ext (h h' : Hedger) :
  client_trades h' = client_trades h -> always_slow h -> always_slow h'.
Proof.
  intros E Hs t v Hv. apply (Hs t).
  unfold Hedger_.recent_client_volume, Hedger_.client_trades_by_time in *.
  now rewrite <- E.
Qed.

Lemma cycle_slow (t : Z) (h : Hedger) (rows : list ClientRow) :
  client_trades h = Loaded rows ->
  always_slow h ->
  execution_queue h = [] ->
  exists h',
    Hedger_.cycle t h = Ok ((t + minutes 1)%Z, h')
    /\ hedge_book h' = hedge_book h
    /\ execution_queue h' = []
    /\ client_trades h' = client_trades h.
Proof.
  intros Hl Hslow Hq.
  unfold Hedger_.cycle, Hedger_.cycle_hedge_quantities.
  destruct (Hedger_.book_client_trades h t (t + minutes 1))
    as [[booked hb]|] eqn:Eb.
  2: { unfold Hedger_.book_client_trades in Eb.
       rewrite (client_trades_by_time_loaded h _ _ rows Hl) in Eb.
       discriminate. }
  apply book_client_trades_spec in Eb as (_ & (_ & Hct & _) & Hhb & Hqb).
  simpl.
  destruct (net_positions_books_live
              (portfolio_books (Hedger_.portfolio hb)) []) as [cur Hcur].
  unfold Portfolio_.net_positions. rewrite Hcur. simpl.
  assert (Hs : Hedger_.get_current_strategy hb (t + minutes 1)
                 (Hedger_.trades_net_by_notional booked)
               = Ok STRATEGY_SLOW).
  { unfold Hedger_.get_current_strategy.
    destruct (Hedger_.recent_client_volume hb time_window (t + minutes 1))
      as [v|err] eqn:Ev.
    - simpl. apply (always_slow_ext h hb Hct Hslow) in Ev.
      apply Qcltb_true_iff in Ev. now rewrite Ev.
    - unfold Hedger_.recent_client_volume in Ev. simpl in Ev.
      rewrite (client_trades_by_time_loaded hb _ _ rows) in Ev
        by congruence.
      discriminate. }
  rewrite Hs. simpl.
  unfold Hedger_.get_hedge_quantities. simpl.
  rewrite Hqb, Hq. simpl.
  exists hb. repeat split; congruence.
Qed.

Lemma run_loop_slow (fuel : nat) (e t : Z) (h : Hedger)
    (rows : list ClientRow) :
  client_trades h = Loaded rows ->
  always_slow h ->
  execution_queue h = [] ->
  match Hedger_.run_loop fuel e t h with
  | Hedger_.Done _ h' =>
      hedge_book h' = hedge_book h /\ execution_queue h' = []
  | Hedger_.Failed _ => False
  | Hedger_.Timeout => True
  end.
Proof.
  revert t h. induction fuel as [|fuel IH]; intros t h Hl Hslow Hq; simpl.
  - destruct (Hedger_.loop_condition e t h); [exact I | now split].
  - destruct (Hedger_.loop_condition e t h); [|now split].
    destruct (cycle_slow t h rows Hl Hslow Hq) as (h' & -> & Hb & Hq' & Hct).
    assert (Hl' : client_trades h' = Loaded rows) by congruence.
    specialize (IH (t + minutes 1)%Z h' Hl'
                  (always_slow_ext h h' Hct Hslow) Hq').
    destruct (Hedger_.run_loop fuel e (t + minutes 1) h'); try exact IH.
    destruct IH as [IH1 IH2]. split; congruence.
Qed.

(** X18. When every window of [time_window] minutes of the client trades
    has a volume below [client_volume_max], the run never fails and places
    no order: when it returns the hedge book is still the new, empty book
    and the queue is empty. *)
Theorem slow_run_places_no_order (fuel : nat) (prices : dict Qc)
    (feed : list FeedRow) (h0 : Hedger) :
  Hedger_.load_client_trades (Hedger_.init prices) feed = Some h0 ->
  always_slow h0 ->
  match Hedger_.run fuel prices feed with
  | Hedger_.Done _ h' =>
      hedge_book h' = Book_.init "HEDGE BOOK" /\ execution_queue h' = []
  | Hedger_.Failed _ => False
  | Hedger_.Timeout => True
  end.
Proof.
  intros El Hslow. unfold Hedger_.run. rewrite El.
  destruct (load_client_trades_spec _ _ _ El) as (s & e & Hs & He & _ & _ & Hq).
  destruct (load_client_trades_facts _ _ _ El) as (Hl & _).
  unfold Hedger_.run_hedging. rewrite Hs, He.
  pose proof (run_loop_slow fuel e s h0 _ Hl Hslow Hq) as H.
  destruct (Hedger_.run_loop fuel e s h0); try exact H.
  destruct H as [H1 H2]. split; [|exact H2].
  rewrite H1. unfold Hedger_.load_client_trades in El.
  destruct (map row_time _) in El; [discriminate|].
  injection El as <-. reflexivity.
Qed.

(** ** The trades of a book *)

Lemma insert_trade_In (x t : Trade) (l : list Trade) :
  In x (Book_.insert_trade t l) <-> x = t \/ In x l.
Proof.
  induction l as [|t' l IH]; simpl.
  - intuition congruence.
  - destruct (trade_time t <? trade_time t')%Z; simpl.
    + intuition congruence.
    + rewrite IH. intuition congruence.
Qed.

Lemma insert_trade_sorted (t : Trade) (l : list Trade) :
  StronglySorted trade_time_le l ->
  StronglySorted trade_time_le (Book_.insert_trade t l).
Proof.
  induction 1 as [|t' l Hl IH Ht']; simpl.
  - repeat constructor.
  - destruct (Z.ltb_spec (trade_time t) (trade_time t')) as [Hlt|Hge].
    + constructor; [now constructor|].
      constructor; [unfold trade_time_le; lia|].
      eapply Forall_impl; [|exact Ht'].
      unfold trade_time_le. intros x Hx. lia.
    + constructor; [exact IH|].
      apply Forall_forall. intros x Hx.
      apply insert_trade_In in Hx as [->|Hx]; [exact Hge|].
      rewrite Forall_forall in Ht'. now apply Ht'.
Qed.

Lemma insert_trade_permutation (t : Trade) (l : list Trade) :
  Permutation (Book_.insert_trade t l) (t :: l).
Proof.
  induction l as [|t' l IH]; simpl; [reflexivity|].
  destruct (trade_time t <? trade_time t')%Z; [reflexivity|].
  rewrite IH. apply perm_swap.
Qed.

Lemma sort_trades_sorted_permutation (l : list Trade) :
  StronglySorted trade_time_le
    (fold_left (fun acc t => Book_.insert_trade t acc) l [])
  /\ Permutation (fold_left (fun acc t => Book_.insert_trade t acc) l []) l.
Proof.
  assert (H : forall acc,
            StronglySorted trade_time_le acc ->
            StronglySorted trade_time_le
              (fold_left (fun acc t => Book_.insert_trade t acc) l acc)
            /\ Permutation
                 (fold_left (fun acc t => Book_.insert_trade t acc) l acc)
                 (l ++ acc)).
  { induction l as [|t l IH]; intros acc Hacc; simpl.
    - now split.
    - destruct (IH _ (insert_trade_sorted t acc Hacc)) as [Hs Hp].
      split; [exact Hs|]. rewrite Hp, insert_trade_permutation.
      symmetry. apply Permutation_middle. }
  destruct (H [] (SSorted_nil _)) as [Hs Hp].
  split; [exact Hs|]. now rewrite app_nil_r in Hp.
Qed.

Lemma get_trades_without_positions (name : string) (as_of_time : option Z)
    (now : Z) :
  Book_.get_trades (mk_Book name []) as_of_time now
  = Raise (KeyError "trade_time").
Proof. reflexivity. Qed.

Lemma permutation_filter {A : Type} (f : A -> bool) (l l' : list A) :
  Permutation l l' -> Permutation (filter f l) (filter f l').
Proof.
  induction 1 as [|x l l' _ IH|x y l|l l' l'' _ IH1 _ IH2]; simpl.
  - constructor.
  - destruct (f x); [now constructor | exact IH].
  - destruct (f x), (f y); try reflexivity. apply perm_swap.
  - now transitivity (filter f l').
Qed.

Lemma all_trades_set (d : dict Position) (k : string) (t : Trade) :
  Permutation
    (all_trades
       (PyDict.set k
          (Position_.trade_add
             (match PyDict.get k d with
              | Some p => p
              | None => Position_.init k
              end) t) d))
    (t :: all_trades d).
Proof.
  unfold all_trades.
  induction d as [|[k' p'] d IH]; simpl.
  - reflexivity.
  - destruct (String.eqb k k') eqn:E; simpl.
    + rewrite <- app_assoc. simpl. symmetry. apply Permutation_middle.
    + rewrite IH. symmetry. apply Permutation_middle.
Qed.

Lemma all_trades_booked (ts : list Trade) (b : Book) :
  Permutation (all_trades (book_positions (fold_left Book_.trade_add ts b)))
    (all_trades (book_positions b) ++ ts).
Proof.
  revert b. induction ts as [|t ts IH]; intros b; simpl.
  - now rewrite app_nil_r.
  - rewrite IH, Book_trade_add_eq. simpl. rewrite all_trades_set.
    simpl. apply Permutation_middle.
Qed.

Lemma columns_concat_frames (acc : Position_.TradeFrame) (rs : list Trade) :
  Position_.columns acc = []
  \/ Position_.columns acc = Position_.trade_columns ->
  Position_.columns
    (Book_.concat_frames acc
       (Position_.mk_TradeFrame Position_.trade_columns rs))
  = Position_.trade_columns.
Proof.
  unfold Book_.concat_frames. simpl. intros [-> | ->]; reflexivity.
Qed.

Lemma get_trades_items_spec (as_of_time : Z) (ps : dict Position)
    (acc : Position_.TradeFrame) :
  Forall position_wf ps ->
  Position_.columns acc = []
  \/ Position_.columns acc = Position_.trade_columns ->
  exists f,
    Book_.get_trades_items ps as_of_time acc = Ok f
    /\ Position_.rows f
       = (Position_.rows acc
          ++ filter (fun x => (trade_time x <=? as_of_time)%Z)
               (all_trades ps))%list
    /\ Position_.columns f
       = match ps with
         | [] => Position_.columns acc
         | _ :: _ => Position_.trade_columns
         end.
Proof.
  revert acc. induction ps as [|[k p] ps IH]; intros acc Hwf Hcols; simpl.
  - exists acc. split; [reflexivity|]. now rewrite app_nil_r.
  - inversion Hwf as [|? ? Hp Hwf']; subst.
    destruct Hp as (_ & Hne & _). simpl in Hne.
    unfold Position_.get_trades, Position_.get_trades_as_dataframe.
    destruct (position_trades p) as [|x xs] eqn:Ep; [congruence|].
    cbn [Position_.column Position_.columns Position_.rows
         Position_.trade_columns existsb String.eqb Ascii.eqb Bool.eqb
         orb bind].
    set (fp := Position_.mk_TradeFrame Position_.trade_columns
                 (filter (fun t => (trade_time t <=? as_of_time)%Z)
                    (x :: xs))).
    pose proof (columns_concat_frames acc (Position_.rows fp) Hcols) as Hc'.
    destruct (IH (Book_.concat_frames acc fp) Hwf' (or_intror Hc'))
      as (f & Hf & Hrows & Hc).
    exists f. split; [exact Hf|]. split.
    + rewrite Hrows. unfold all_trades. cbn [map snd List.concat].
      rewrite Ep, filter_app, app_assoc. reflexivity.
    + rewrite Hc. destruct ps; [exact Hc' | reflexivity].
Qed.

(** X19. The trades of a book as of a time (without a time: as of the
    wall clock): a book without any booked trade raises [KeyError]; a book
    with booked trades returns the frame of exactly its trades up to that
    time, each once, ordered by time. *)
Theorem book_get_trades (name : string) (ts : list Trade)
    (as_of_time : option Z) (now : Z) :
  let time := match as_of_time with None => now | Some t => t end in
  match ts with
  | [] =>
      Book_.get_trades (book_of (name, ts)) as_of_time now
      = Raise (KeyError "trade_time")
  | _ :: _ =>
      exists f,
        Book_.get_trades (book_of (name, ts)) as_of_time now = Ok f
        /\ Position_.columns f = Position_.trade_columns
        /\ StronglySorted trade_time_le (Position_.rows f)
        /\ Permutation (Position_.rows f)
             (filter (fun x => (trade_time x <=? time)%Z) ts)
  end.
Proof.
  intros time. destruct ts as [|t0 ts]; [reflexivity|].
  assert (Hperm : Permutation
                    (all_trades (book_positions (book_of (name, t0 :: ts))))
                    (t0 :: ts)).
  { unfold book_of. simpl fst. simpl snd.
    rewrite all_trades_booked. reflexivity. }
  assert (Hwf : book_wf (book_of (name, t0 :: ts)))
    by apply book_wf_booked, book_wf_init.
  destruct Hwf as [_ Hwf].
  remember (book_of (name, t0 :: ts)) as b eqn:Eb.
  destruct (get_trades_items_spec time (book_positions b)
              (Position_.mk_TradeFrame [] []) Hwf (or_introl eq_refl))
    as (f & Hf & Hrows & Hcols).
  assert (Hc : Position_.columns f = Position_.trade_columns).
  { rewrite Hcols. destruct (book_positions b); [|reflexivity].
    apply Permutation_nil in Hperm. discriminate. }
  destruct (sort_trades_sorted_permutation (Position_.rows f)) as [Hs Hp].
  exists (Position_.mk_TradeFrame (Position_.columns f)
            (fold_left (fun acc t => Book_.insert_trade t acc)
               (Position_.rows f) [])).
  split.
  - unfold Book_.get_trades. fold time. rewrite Hf. simpl.
    unfold Book_.sort_values_by_trade_time. rewrite Hc. reflexivity.
  - split; [exact Hc|]. split; [exact Hs|].
    cbn [Position_.rows]. rewrite Hp, Hrows. cbn [Position_.rows app].
    now apply permutation_filter.
Qed.

(** X20. After a run in which every window of [time_window] minutes has a
    volume below [client_volume_max], saving the hedge trades raises
    [KeyError]: the frame of the empty hedge book has no column to sort
    by. *)
Theorem slow_run_cannot_save (fuel : nat) (prices : dict Qc)
    (feed : list FeedRow) (h0 h' : Hedger) (ot : option Z) (now : Z) :
  Hedger_.load_client_trades (Hedger_.init prices) feed = Some h0 ->
  always_slow h0 ->
  Hedger_.run fuel prices feed = Hedger_.Done ot h' ->
  Hedger_.save_hedge_trades h' now = Raise (KeyError "trade_time").
Proof.
  intros El Hslow Hrun. unfold Hedger_.run in Hrun. rewrite El in Hrun.
  destruct (load_client_trades_spec _ _ _ El) as (s & e & Hs & He & _ & _ & Hq).
  destruct (load_client_trades_facts _ _ _ El) as (Hl & _).
  unfold Hedger_.run_hedging in Hrun. rewrite Hs, He in Hrun.
  pose proof (run_loop_slow fuel e s h0 _ Hl Hslow Hq) as H.
  rewrite Hrun in H. destruct H as [Hb _].
  unfold Hedger_.save_hedge_trades. rewrite Hb.
  unfold Hedger_.load_client_trades in El.
  destruct (map row_time _) in El; [discriminate|].
  injection El as <-. reflexivity.
Qed.

(** * More concrete inputs *)

Lemma as_of_stability_witness :
  let p := position_of "BTC" [one_trade] in
  (700 <= 800)%Z
  /\ (forall x, In x (position_trades p) -> ~ (700 < trade_time x <= 800)%Z)
  /\ Position_.get_quantity p (Some 700%Z)
     = Position_.get_quantity p (Some 800%Z).
Proof.
  intros p.
  assert (H1 : (700 <= 800)%Z) by lia.
  assert (H2 : forall x, In x (position_trades p) ->
                         ~ (700 < trade_time x <= 800)%Z).
  { intros x [<-|[]]. simpl. lia. }
  split; [exact H1|]. split; [exact H2|].
  exact (as_of_stability p 700 800 H1 H2).
Defined.

Lemma as_of_before_first_trade_witness :
  let p := position_of "BTC" [one_trade] in
  position_trades p <> []
  /\ Forall (fun x => (500 < trade_time x)%Z) (position_trades p)
  /\ Position_.get_quantity p (Some 500%Z) = Ok 0.
Proof.
  intros p.
  assert (H1 : position_trades p <> []) by discriminate.
  assert (H2 : Forall (fun x => (500 < trade_time x)%Z) (position_trades p)).
  { repeat constructor. }
  split; [exact H1|]. split; [exact H2|].
  exact (as_of_before_first_trade p 500 H1 H2).
Defined.

Lemma NoDup_long_and_flat : NoDup (keys long_and_flat).
Proof.
  repeat constructor; simpl; intros H; intuition discriminate.
Defined.

Lemma get_hedge_quantities_normal_negates_witness :
  NoDup (keys long_and_flat)
  /\ PyDict.get "ETH" (Hedger_.get_hedge_quantities_normal long_and_flat)
     = match PyDict.get "ETH" long_and_flat with
       | Some q => if Qc_eq_dec q 0 then None else Some (- q)
       | None => None
       end.
Proof.
  split; [exact NoDup_long_and_flat|].
  exact (get_hedge_quantities_normal_negates long_and_flat "ETH"
           NoDup_long_and_flat).
Defined.

Lemma stealth_round_robin_witness :
  NoDup (keys long_and_flat)
  /\ Hedger_.get_hedge_quantities_stealth long_and_flat
     = List.concat (repeat (map stealth_hedge long_and_flat) execution_chunks)
  /\ List.length (Hedger_.get_hedge_quantities_stealth long_and_flat)
     = (execution_chunks * List.length long_and_flat)%nat.
Proof.
  split; [exact NoDup_long_and_flat|].
  exact (stealth_round_robin long_and_flat NoDup_long_and_flat).
Defined.

Lemma stealth_chunk_count_by_asset_witness :
  NoDup (keys long_and_flat)
  /\ chunk_count "ETH" (Hedger_.get_hedge_quantities_stealth long_and_flat)
     = if PyDict.mem "ETH" long_and_flat then execution_chunks else 0%nat.
Proof.
  split; [exact NoDup_long_and_flat|].
  exact (stealth_chunk_count_by_asset long_and_flat "ETH"
           NoDup_long_and_flat).
Defined.

Lemma get_hedge_quantities_queue_witness :
  let hq := fst stealth_result in
  let h' := snd stealth_result in
  Hedger_.get_hedge_quantities queued_hedger long_and_flat []
    STRATEGY_STEALTH = Ok (hq, h')
  /\ same_setup queued_hedger h'
  /\ client_book h' = client_book queued_hedger
  /\ hedge_book h' = hedge_book queued_hedger
  /\ execution_queue h'
     = tl (execution_queue queued_hedger
           ++ if String.eqb STRATEGY_STEALTH STRATEGY_STEALTH
              then Hedger_.get_hedge_quantities_stealth long_and_flat
              else [])%list.
Proof.
  intros hq h'.
  assert (H : Hedger_.get_hedge_quantities queued_hedger long_and_flat []
                STRATEGY_STEALTH = Ok (hq, h')) by reflexivity.
  split; [exact H|].
  exact (get_hedge_quantities_queue queued_hedger h' long_and_flat []
           STRATEGY_STEALTH hq H).
Defined.

Lemma get_hedge_quantities_front_witness :
  let front := [("BTC", Qc_of_Z (-80))] in
  (STRATEGY_SLOW = STRATEGY_SLOW \/ STRATEGY_SLOW = STRATEGY_STEALTH)
  /\ execution_queue queued_hedger = front :: []
  /\ NoDup (keys front)
  /\ exists hq h',
       Hedger_.get_hedge_quantities queued_hedger long_and_flat []
         STRATEGY_SLOW = Ok (hq, h')
       /\ is_counter hq = true
       /\ forall asset, PyDict.get asset (items hq) = PyDict.get asset front.
Proof.
  intros front.
  assert (H1 : STRATEGY_SLOW = STRATEGY_SLOW \/ STRATEGY_SLOW = STRATEGY_STEALTH)
    by (left; reflexivity).
  assert (H2 : execution_queue queued_hedger = front :: []) by reflexivity.
  assert (H3 : NoDup (keys front)).
  { repeat constructor. simpl. tauto. }
  split; [exact H1|]. split; [exact H2|]. split; [exact H3|].
  exact (get_hedge_quantities_front queued_hedger long_and_flat []
           STRATEGY_SLOW front [] H1 H2 H3).
Defined.

Lemma loaded_slow :
  Hedger_.load_client_trades (Hedger_.init example_prices) slow_feed
  = Some (loaded slow_feed).
Proof. reflexivity. Defined.

Lemma always_slow_loaded_slow : always_slow (loaded slow_feed).
Proof.
  intros t v H. unfold Hedger_.recent_client_volume in H.
  simpl in H. injection H as <-.
  unfold Hedger_.client_trades_by_time.
  change (client_trades (loaded slow_feed))
    with [mk_ClientRow
            (mk_FeedRow 600 "BTC" "USD" (Qc_of_Z 2) (Qc_of_Z 30000))
            (Qc_of_Z 2 * Qc_of_Z 30000)].
  simpl filter.
  match goal with
  | |- context [if ?b then _ else _] => destruct b
  end; vm_compute; reflexivity.
Defined.

Lemma load_client_trades_sorts_witness :
  let h := Hedger_.init example_prices in
  let h0 := loaded two_asset_feed in
  Hedger_.load_client_trades h two_asset_feed = Some h0
  /\ client_trades h0 = Loaded (feed_rows two_asset_feed)
  /\ Permutation (map row_feed (client_rows (client_trades h0)))
       two_asset_feed
  /\ StronglySorted row_time_le (client_rows (client_trades h0))
  /\ Forall (fun r => row_notional r
                      = feed_quantity (row_feed r) * feed_price (row_feed r))
       (client_rows (client_trades h0))
  /\ (exists first last,
        In first two_asset_feed /\ In last two_asset_feed
        /\ start_time h0 = Some (feed_time first - 60)%Z
        /\ end_time h0 = Some (feed_time last)
        /\ forall r, In r two_asset_feed ->
                     (feed_time first <= feed_time r <= feed_time last)%Z)
  /\ client_book h0 = client_book h
  /\ hedge_book h0 = hedge_book h
  /\ close_prices h0 = close_prices h
  /\ execution_queue h0 = execution_queue h.
Proof.
  intros h h0.
  assert (H : Hedger_.load_client_trades h two_asset_feed = Some h0)
    by reflexivity.
  split; [exact H|].
  exact (load_client_trades_sorts h h0 two_asset_feed H).
Defined.

Lemma run_books_every_client_trade_witness :
  let h' := final_hedger 10 two_asset_feed in
  Hedger_.run 10 example_prices two_asset_feed
  = Hedger_.Done (Some 1140%Z) h'
  /\ book_trades (client_book h') "BTC"
     = trades_in "BTC"
         (map (row_trade "CLIENT BOOK") (feed_rows two_asset_feed)).
Proof.
  intros h'.
  assert (H : Hedger_.run 10 example_prices two_asset_feed
              = Hedger_.Done (Some 1140%Z) h') by (vm_compute; reflexivity).
  split; [exact H|].
  exact (run_books_every_client_trade 10 example_prices two_asset_feed
           (Some 1140%Z) h' "BTC" H).
Defined.

Lemma slow_run_places_no_order_witness :
  Hedger_.load_client_trades (Hedger_.init example_prices) slow_feed
  = Some (loaded slow_feed)
  /\ always_slow (loaded slow_feed)
  /\ match Hedger_.run 5 example_prices slow_feed with
     | Hedger_.Done _ h' =>
         hedge_book h' = Book_.init "HEDGE BOOK" /\ execution_queue h' = []
     | Hedger_.Failed _ => False
     | Hedger_.Timeout => True
     end.
Proof.
  split; [exact loaded_slow|]. split; [exact always_slow_loaded_slow|].
  exact (slow_run_places_no_order 5 example_prices slow_feed
           (loaded slow_feed) loaded_slow always_slow_loaded_slow).
Defined.

Lemma slow_run_cannot_save_witness :
  let h' := final_hedger 5 slow_feed in
  Hedger_.load_client_trades (Hedger_.init example_prices) slow_feed
  = Some (loaded slow_feed)
  /\ always_slow (loaded slow_feed)
  /\ Hedger_.run 5 example_prices slow_feed = Hedger_.Done (Some 660%Z) h'
  /\ Hedger_.save_hedge_trades h' 0 = Raise (KeyError "trade_time").
Proof.
  intros h'.
  assert (H : Hedger_.run 5 example_prices slow_feed
              = Hedger_.Done (Some 660%Z) h') by (vm_compute; reflexivity).
  split; [exact loaded_slow|]. split; [exact always_slow_loaded_slow|].
  split; [exact H|].
  exact (slow_run_cannot_save 5 example_prices slow_feed (loaded slow_feed)
           h' (Some 660%Z) 0 loaded_slow always_slow_loaded_slow H).
Defined.
